(** * Ecomsy dashboard: the sizes endpoint, the size form and the schema

    A shallow embedding of
    - the Prisma schema (models [Store], [Billboard], [Category], [Size]),
    - the route handlers [POST] and [GET] of [/api/{storeId}/sizes],
    - the zod [formSchema] of the size form and the form's [onSubmit],
    - the billboard form's [onDelete],
    together with the properties the specification states about them.

    Conventions.  A JavaScript string is the list of its UTF-16 code units
    ([jsstring]); [.length], the regular expressions and [trim] of the source
    all work on code units.  A handler runs in the monad [M]: state is the
    database, and a computation either completes normally or throws; the
    handlers' [try { ... } catch (error) { ... }] is [try_catch].  The calls
    to [console.log] write to the server log only and are left out. *)

From stdpp Require Import base decidable option list.
From Stdlib Require Import ZArith NArith Ascii String Lia.

Local Open Scope Z_scope.
Set Warnings "-register-all".

(* ===================================================================== *)
(** ** JavaScript values *)
(* ===================================================================== *)

(** UTF-16 code units. *)
Abbreviation jsstring := (list N).

(** The code units of an ASCII literal of the source. *)
Definition js (s : string) : jsstring :=
  List.map N_of_ascii (list_ascii_of_string s).

(** What [req.json()] can produce (JSON), plus [undefined] for a property
    that is not there.  A JSON number is kept as an integer: the handlers
    only ever test a number for being zero. *)
Inductive JsValue : Type :=
| JUndefined
| JNull
| JBool (b : bool)
| JNumber (z : Z)
| JString (s : jsstring)
| JArray (elems : list JsValue)
| JObject (props : list (jsstring * JsValue)).

(** ToBoolean, as used by [!x]. *)
Definition truthy (v : JsValue) : bool :=
  match v with
  | JUndefined | JNull => false
  | JBool b => b
  | JNumber z => negb (z =? 0)
  | JString s => negb (bool_decide (s = []))
  | JArray _ | JObject _ => true
  end.

(** ToBoolean of a [string | null]. *)
Definition truthy_str (s : option jsstring) : bool :=
  match s with
  | None => false
  | Some s => negb (bool_decide (s = []))
  end.

(** Own property of an object built by [JSON.parse]: of several members with
    the same key the last one wins. *)
Fixpoint lookup_prop (k : jsstring) (props : list (jsstring * JsValue))
  : option JsValue :=
  match props with
  | [] => None
  | (k', v) :: rest =>
      match lookup_prop k rest with
      | Some v' => Some v'
      | None => if bool_decide (k' = k) then Some v else None
      end
  end.

(** [v.k] for a non-nullish [v] and a key [k] that no built-in prototype
    defines (such as [name] and [value]): the own property of an object,
    [undefined] for everything else. *)
Definition get_prop (v : JsValue) (k : jsstring) : JsValue :=
  match v with
  | JObject props => default JUndefined (lookup_prop k props)
  | _ => JUndefined
  end.

(* ===================================================================== *)
(** ** The schema (schema.prisma) *)
(* ===================================================================== *)

(** [DateTime] values are points on a linear clock. *)
Abbreviation DateTime := Z.

Module Store.
Record t := mk {
  id : jsstring;
  name : jsstring;
  userId : jsstring;
  createdAt : DateTime;
  updatedAt : DateTime
}.
End Store.

Module Billboard.
Record t := mk {
  id : jsstring;
  storeId : jsstring;
  label : jsstring;
  imageUrl : jsstring;
  createdAt : DateTime;
  updatedAt : DateTime
}.
End Billboard.

Module Category.
Record t := mk {
  id : jsstring;
  storeId : jsstring;
  billboardId : jsstring;
  name : jsstring;
  createdAt : DateTime;
  updatedAt : DateTime
}.
End Category.

Module Size.
Record t := mk {
  id : jsstring;
  storeId : jsstring;
  name : jsstring;
  value : jsstring;
  createdAt : DateTime;
  updatedAt : DateTime
}.
End Size.

(** The database: one table per model.  [relationMode = "prisma"]: the
    database itself holds no foreign keys. *)
Record Db := mkDb {
  tblStore : list Store.t;
  tblBillboard : list Billboard.t;
  tblCategory : list Category.t;
  tblSize : list Size.t
}.

(* ===================================================================== *)
(** ** Computations: database state and exceptions *)
(* ===================================================================== *)

Inductive Exn : Type :=
| SyntaxError            (* req.json() on a body that is not JSON *)
| TypeError              (* destructuring null *)
| PrismaValidationError  (* an argument of the wrong type *)
| PrismaValueTooLong     (* P2000: the value does not fit its column *)
| PrismaUniqueConstraint (* P2002: the primary key is taken *).

Inductive Completion (A : Type) : Type :=
| Normal (a : A)
| Throw (e : Exn).
Arguments Normal {A} a.
Arguments Throw {A} e.

Definition M (A : Type) : Type := Db → Completion A * Db.

Definition ret {A} (a : A) : M A := λ db, (Normal a, db).
Definition throw {A} (e : Exn) : M A := λ db, (Throw e, db).
Definition bind {A B} (m : M A) (k : A → M B) : M B :=
  λ db, match m db with
        | (Normal a, db') => k a db'
        | (Throw e, db') => (Throw e, db')
        end.
Definition try_catch {A} (m : M A) (handler : Exn → M A) : M A :=
  λ db, match m db with
        | (Normal a, db') => (Normal a, db')
        | (Throw e, db') => handler e db'
        end.
Definition get_db : M Db := λ db, (Normal db, db).
Definition put_db (db : Db) : M unit := λ _, (Normal tt, db).

Declare Scope handler_scope.
Delimit Scope handler_scope with handler.
(** [x <~ m ;; k] reads [const x = await m; k]. *)
Notation "x <~ m ;; k" := (bind m (λ x, k))
  (at level 100, m at next level, right associativity) : handler_scope.
Local Open Scope handler_scope.

(* ===================================================================== *)
(** ** The request context *)
(* ===================================================================== *)

(** What [auth()] returns (the part the handlers read). *)
Record AuthObject := { userId : option jsstring }.

(** What a request gets from outside the handler: the Clerk session, and
    the values the Prisma engine draws for [uuid()] and [now()] while it
    serves the request. *)
Record Env := {
  auth : AuthObject;
  uuid : jsstring;
  now : DateTime
}.

(** The request body: [None] when it is not JSON. *)
Record Request := { req_body : option JsValue }.

Record Params := { storeId : jsstring }.

Inductive Body : Type :=
| Text (s : string)
| JsonSize (row : Size.t)
| JsonSizes (rows : list Size.t).

Record NextResponse := { body : Body; status : Z }.

(** [new NextResponse(text, { status })]. *)
Definition NextResponse_new (text : string) (st : Z) : NextResponse :=
  {| body := Text text; status := st |}.

(** [NextResponse.json(x)]: status 200. *)
Definition NextResponse_json (b : Body) : NextResponse :=
  {| body := b; status := 200 |}.

(** [await req.json()]. *)
Definition req_json (req : Request) : M JsValue :=
  match req_body req with
  | Some v => ret v
  | None => throw SyntaxError
  end.

(** [const { name, value } = body]. *)
Definition destructure_name_value (b : JsValue) : M (JsValue * JsValue) :=
  match b with
  | JNull | JUndefined => throw TypeError
  | _ => ret (get_prop b (js "name"), get_prop b (js "value"))
  end.

(* ===================================================================== *)
(** ** The Prisma client (the persistence gateway) *)
(* ===================================================================== *)

(** The characters of a string as the database counts them: a surrogate
    pair (a code unit of D800-DBFF, then one of DC00-DFFF) is one
    character, every other code unit is one. *)
Fixpoint char_length (s : jsstring) : nat :=
  match s with
  | [] => O
  | hi :: tl =>
      match tl with
      | lo :: rest =>
          if ((55296 <=? hi) && (hi <=? 56319)
              && (56320 <=? lo) && (lo <=? 57343))%N
          then S (char_length rest)
          else S (char_length tl)
      | [] => 1%nat
      end
  end.

(** A [String] field of the schema with no native type is, on the [mysql]
    provider, a column of at most 191 characters. *)
Definition fits_String (s : jsstring) : bool := (char_length s <=? 191)%nat.

Module prismadb.

Module store.
(** [findFirst({ where })]: the first row the filter accepts, or null. *)
Definition findFirst (where_ : Store.t → bool) : M (option Store.t) :=
  db <~ get_db ;;
  ret (List.find where_ (tblStore db)).
End store.

Module size.
(** [create({ data: { name, value, storeId } })].  [name] and [value]
    are [String] columns: any other type is a validation error, and a
    string that does not fit the column is refused.  ([storeId] is the [id]
    of a Store row by the time the handler creates, so it is in such a
    column already.)  [id] is [@id @default(uuid())]: a primary key, so a
    taken one is refused.  [createdAt] is [@default(now())] and [updatedAt]
    is [@updatedAt]: both are the time of the operation. *)
Definition create (env : Env) (name value : JsValue) (sid : jsstring)
  : M Size.t :=
  match name, value with
  | JString n, JString v =>
      if negb (fits_String n && fits_String v)
      then throw PrismaValueTooLong
      else
        db <~ get_db ;;
        if existsb (λ r, bool_decide (Size.id r = uuid env)) (tblSize db)
        then throw PrismaUniqueConstraint
        else
          let row := Size.mk (uuid env) sid n v (now env) (now env) in
          _ <~ put_db (mkDb (tblStore db) (tblBillboard db)
                            (tblCategory db) (tblSize db ++ [row])) ;;
          ret row
  | _, _ => throw PrismaValidationError
  end.

(** [findMany({ where })]: all rows the filter accepts. *)
Definition findMany (where_ : Size.t → bool) : M (list Size.t) :=
  db <~ get_db ;;
  ret (List.filter where_ (tblSize db)).
End size.

End prismadb.

(* ===================================================================== *)
(** ** The route handlers of /api/{storeId}/sizes *)
(* ===================================================================== *)

Definition POST (env : Env) (req : Request) (params : Params)
  : M NextResponse :=
  try_catch
    (let userId := userId (auth env) in
     body <~ req_json req ;;
     nv <~ destructure_name_value body ;;
     let '(name, value) := nv in
     if negb (truthy_str userId) then
       ret (NextResponse_new "Unauthenticated" 401)
     else if negb (truthy name) then
       ret (NextResponse_new "name is required!" 400)
     else if negb (truthy value) then
       ret (NextResponse_new "value is required!" 400)
     else if negb (truthy (JString (storeId params))) then
       ret (NextResponse_new "storeId is required!" 400)
     else
       storeByUserId <~ prismadb.store.findFirst
         (λ s, bool_decide (Store.id s = storeId params)
               && bool_decide (Some (Store.userId s) = userId)) ;;
       match storeByUserId with
       | None => ret (NextResponse_new "Unauthorized" 403)
       | Some _ =>
           size <~ prismadb.size.create env name value (storeId params) ;;
           ret (NextResponse_json (JsonSize size))
       end)
    (λ error, ret (NextResponse_new "Internal error" 500)).

Definition GET (env : Env) (_req : Request) (params : Params)
  : M NextResponse :=
  try_catch
    (if negb (truthy (JString (storeId params))) then
       ret (NextResponse_new "storeId is required!" 400)
     else
       sizes <~ prismadb.size.findMany
         (λ r, bool_decide (Size.storeId r = storeId params)) ;;
       ret (NextResponse_json (JsonSizes sizes)))
    (λ error, ret (NextResponse_new "Internal error" 500)).

(* ===================================================================== *)
(** ** The size form (size-form.tsx) *)
(* ===================================================================== *)

(** The character class [[a-zA-Z0-9áéíóúâêîôûãõñç ]] of the two regular
    expressions, on code units. *)
Definition allowed_char (c : N) : bool :=
  (((97 <=? c) && (c <=? 122))          (* a-z *)
   || ((65 <=? c) && (c <=? 90))        (* A-Z *)
   || ((48 <=? c) && (c <=? 57))        (* 0-9 *)
   || bool_decide (c ∈ [225; 233; 237; 243; 250;   (* á é í ó ú *)
                        226; 234; 238; 244; 251;   (* â ê î ô û *)
                        227; 245; 241; 231;        (* ã õ ñ ç *)
                        32]))%N.                   (* space *)

(** [/^[...]+$/.test(s)]: one or more characters, all of the class. *)
Definition regex_test (s : jsstring) : bool :=
  match s with
  | [] => false
  | _ => forallb allowed_char s
  end.

(** WhiteSpace and LineTerminator of ECMAScript: what [trim] strips. *)
Definition is_white_space (c : N) : bool :=
  (bool_decide (c ∈ [9; 10; 11; 12; 13; 32; 160; 5760; 8232; 8233; 8239;
                     8287; 12288; 65279])
   || ((8192 <=? c) && (c <=? 8202)))%N.

Fixpoint trimStart (s : jsstring) : jsstring :=
  match s with
  | c :: rest => if is_white_space c then trimStart rest else s
  | [] => []
  end.

Definition trimEnd (s : jsstring) : jsstring := rev (trimStart (rev s)).

Definition trim (s : jsstring) : jsstring := trimEnd (trimStart s).

(** The two messages the schema sets itself; the messages of [min] and
    [max] come from the zod translation table. *)
Inductive ZodIssue : Type :=
| too_small (minimum : nat)
| too_big (maximum : nat)
| invalid_string (message : string)
| custom (message : string).

Definition msg_letters_digits : string :=
  "Texto deve conter apenas letras e números".
Definition msg_no_outer_blanks : string :=
  "Texto não pode conter espaços em branco no início ou no final".

(** [z.string().min(lo).max(hi).regex(...).refine(v => v.trim() === v)] on a
    string: every check runs, each failed one adds its issue. *)
Definition string_rule (lo hi : nat) (s : jsstring) : list ZodIssue :=
  (if (List.length s <? lo)%nat then [too_small lo] else [])
  ++ (if (hi <? List.length s)%nat then [too_big hi] else [])
  ++ (if regex_test s then [] else [invalid_string msg_letters_digits])
  ++ (if bool_decide (trim s = s) then [] else [custom msg_no_outer_blanks]).

Record SizeFormValues := { name : jsstring; value : jsstring }.

Inductive Field : Type := field_name | field_value.

#[global] Instance Field_eq_dec : EqDecision Field.
Proof. solve_decision. Defined.

(** [formSchema.safeParse(data)]: the issues, each with its path. *)
Definition formSchema (data : SizeFormValues) : list (Field * ZodIssue) :=
  List.map (pair field_name) (string_rule 3 30 (name data))
  ++ List.map (pair field_value) (string_rule 1 5 (value data)).

Inductive Toast : Type :=
| toast_success (message : string)
| toast_error (message : string).

(** [onSubmit] of a form without [initialData] (create): [axios.post] of the
    values as the JSON body; axios rejects on a status outside 2xx. *)
Definition onSubmit (env : Env) (params : Params) (data : SizeFormValues)
  : M Toast :=
  response <~ POST env
    {| req_body := Some (JObject [(js "name", JString (name data));
                                  (js "value", JString (value data))]) |}
    params ;;
  if (200 <=? status response) && (status response <? 300)
  then ret (toast_success "Tamanho criado com sucesso!")
  else ret (toast_error "Algo correu mal ao criar o tamanho!").

Inductive Submitted : Type :=
| FieldErrors (issues : list (Field * ZodIssue))
| Sent (t : Toast).

(** The errors the resolver hands to the form: [useForm] is called without
    [criteriaMode], so of the issues of one field only the first is kept
    ([seen]: the fields that have their error already). *)
Fixpoint first_per_field (issues : list (Field * ZodIssue))
    (seen : list Field) : list (Field * ZodIssue) :=
  match issues with
  | [] => []
  | (field, issue) :: rest =>
      if bool_decide (field ∈ seen) then first_per_field rest seen
      else (field, issue) :: first_per_field rest (field :: seen)
  end.

(** [form.handleSubmit(onSubmit)] with the [zodResolver(formSchema)]:
    [onSubmit] runs only when the schema has no issue; otherwise the first
    issue of each field is shown at the field and nothing is sent. *)
Definition handleSubmit (env : Env) (params : Params) (data : SizeFormValues)
  : M Submitted :=
  match formSchema data with
  | [] => t <~ onSubmit env params data ;; ret (Sent t)
  | issues => ret (FieldErrors (first_per_field issues []))
  end.

(* ===================================================================== *)
(** ** Operations of the specification whose handlers are not in the
       sources *)
(* ===================================================================== *)

(** The failures of the specification's error taxonomy. *)
Inductive Failure : Type :=
| Unauthenticated | Forbidden | BadRequest | NotFound | Conflict.

Inductive Outcome (A : Type) : Type :=
| Ok (a : A)
| Fails (f : Failure).
Arguments Ok {A} a.
Arguments Fails {A} f.

(** Modelled from the spec: the handler of [GET /api/{storeId}/sizes/{id}]
    is missing.  "Get(storeId, entityId): returns single row or fails
    NotFound." *)
Definition Get (sid entityId : jsstring) : M (Outcome Size.t) :=
  db <~ get_db ;;
  match List.find (λ r, bool_decide (Size.id r = entityId)) (tblSize db) with
  | Some row => ret (Ok row)
  | None => ret (Fails NotFound)
  end.

(** Modelled from the spec: the Ownership Guard (no handler of the sources
    has it as a function of its own).  "userId non-empty (else fails
    Unauthenticated); storeId non-empty (else fails BadRequest); looks up
    the Store row matching both id = storeId and userId; if absent, fails
    with Forbidden.  No side effects." *)
Definition authorize (uid : option jsstring) (sid : jsstring)
  : M (Outcome Store.t) :=
  if negb (truthy_str uid) then ret (Fails Unauthenticated)
  else if bool_decide (sid = []) then ret (Fails BadRequest)
  else
    store <~ prismadb.store.findFirst
      (λ s, bool_decide (Store.id s = sid)
            && bool_decide (Some (Store.userId s) = uid)) ;;
    match store with
    | Some s => ret (Ok s)
    | None => ret (Fails Forbidden)
    end.

(** Modelled from the spec: the handler of
    [DELETE /api/{storeId}/billboards/{id}] is missing.
    "Delete(userId, storeId, entityId): ownership check, then attempts
    delete; if the entity is still referenced by a dependent (Billboard
    referenced by Category ...), the underlying store operation fails and
    this is surfaced as Conflict."  Deletion is physical and scoped to both
    store and entity id; an id with no row fails NotFound. *)
Definition Delete_billboard (uid : option jsstring) (sid entityId : jsstring)
  : M (Outcome Billboard.t) :=
  guard <~ authorize uid sid ;;
  match guard with
  | Fails f => ret (Fails f)
  | Ok _ =>
      db <~ get_db ;;
      let is_target := λ b, bool_decide (Billboard.id b = entityId)
                            && bool_decide (Billboard.storeId b = sid) in
      match List.find is_target (tblBillboard db) with
      | None => ret (Fails NotFound)
      | Some b =>
          if existsb (λ c, bool_decide (Category.billboardId c = entityId))
                     (tblCategory db)
          then ret (Fails Conflict)
          else
            _ <~ put_db (mkDb (tblStore db)
                              (List.filter (λ b, negb (is_target b))
                                           (tblBillboard db))
                              (tblCategory db) (tblSize db)) ;;
            ret (Ok b)
      end
  end.

(** [onDelete] of the billboard form (billboard-form.tsx): [axios.delete]
    of the billboard; any failure of the request shows the one message about
    the categories that still use the billboard. *)
Definition onDelete (uid : option jsstring) (sid billboardId : jsstring)
  : M Toast :=
  result <~ Delete_billboard uid sid billboardId ;;
  match result with
  | Ok _ => ret (toast_success "Painel apagado com sucesso.")
  | Fails _ =>
      ret (toast_error
             "Certifique-se que remove todas as categorias que usam este painel, antes de o apagar.")
  end.

(* ===================================================================== *)
(** ** Vocabulary of the statements *)
(* ===================================================================== *)

(** Some Store row matches both [id = sid] and [userId = u]. *)
Definition owns (db : Db) (u sid : jsstring) : Prop :=
  ∃ s, s ∈ tblStore db ∧ Store.id s = sid ∧ Store.userId s = u.

(** The filter of the handler's [findFirst]. *)
Definition store_where (sid : jsstring) (uid : option jsstring)
  : Store.t → bool :=
  λ s, bool_decide (Store.id s = sid) && bool_decide (Some (Store.userId s) = uid).

(** The database with one more Size row. *)
Definition with_size (db : Db) (row : Size.t) : Db :=
  mkDb (tblStore db) (tblBillboard db) (tblCategory db) (tblSize db ++ [row]).

(** The row [prismadb.size.create] builds. *)
Definition new_size (env : Env) (sid n v : jsstring) : Size.t :=
  Size.mk (uuid env) sid n v (now env) (now env).

(** The generated identifier is not yet a primary key of the Size table. *)
Definition fresh_id (env : Env) (db : Db) : Prop :=
  ∀ r, r ∈ tblSize db → Size.id r ≠ uuid env.

(** The body is JSON that the handler can destructure. *)
Definition readable (b : JsValue) : Prop := b ≠ JNull ∧ b ≠ JUndefined.

(** The five responses of [POST] that carry a text. *)
Definition unauthenticated_401 := NextResponse_new "Unauthenticated" 401.
Definition name_required_400 := NextResponse_new "name is required!" 400.
Definition value_required_400 := NextResponse_new "value is required!" 400.
Definition storeId_required_400 := NextResponse_new "storeId is required!" 400.
Definition unauthorized_403 := NextResponse_new "Unauthorized" 403.
Definition internal_error_500 := NextResponse_new "Internal error" 500.

(* ===================================================================== *)
(** ** Sample data: one store of user [u1], requests by [u1], [u2] and by
       nobody *)
(* ===================================================================== *)

Module Sample.
Definition u1 : jsstring := js "user_1".
Definition u2 : jsstring := js "user_2".
Definition store1 : Store.t := Store.mk (js "store1") (js "Loja") u1 1 1.

(** Only [store1], owned by [u1]. *)
Definition db0 : Db := mkDb [store1] [] [] [].
(** No store at all. *)
Definition db_empty : Db := mkDb [] [] [] [].

Definition env_of (uid : option jsstring) : Env :=
  {| auth := {| userId := uid |}; uuid := js "size-0001"; now := 1700 |}.

Definition at_store1 : Params := {| storeId := js "store1" |}.

Definition object (members : list (string * JsValue)) : JsValue :=
  JObject (List.map (λ m, (js (fst m), snd m)) members).

Definition post (members : list (string * JsValue)) : Request :=
  {| req_body := Some (object members) |}.

(** [{ name: "Pequeno", value: "S" }], the example of the specification. *)
Definition pequeno : Request :=
  post [("name"%string, JString (js "Pequeno"));
        ("value"%string, JString (js "S"))].

Definition size1 : Size.t :=
  Size.mk (js "size-0001") (js "store1") (js "Pequeno") (js "S") 1700 1700.

Definition billboard1 : Billboard.t :=
  Billboard.mk (js "bb-1") (js "store1") (js "Saldos") (js "https://img/1")
               2 2.
Definition category1 : Category.t :=
  Category.mk (js "cat-1") (js "store1") (js "bb-1") (js "Camisas") 3 3.

(** A size of some other store, and a Size table with both. *)
Definition size_elsewhere : Size.t :=
  Size.mk (js "size-0002") (js "store2") (js "Grande") (js "L") 1500 1600.
Definition db_sizes : Db := mkDb [store1] [] [] [size_elsewhere; size1].

(** [store1] with one billboard and one category that uses it. *)
Definition db_billboard : Db := mkDb [store1] [billboard1] [category1] [].
End Sample.


(* ===================================================================== *)
(** ** The order of checks, in the words of the specification *)
(* ===================================================================== *)

(** The checks of Create in the order the specification gives them, each
    with the response of its failure: authentication, presence of [name]
    and of [value], presence of [storeId], ownership of the store. *)
Definition create_checks (env : Env) (params : Params) (db : Db)
    (name value : JsValue) : list (bool * NextResponse) :=
  [ (truthy_str (userId (auth env)), unauthenticated_401);
    (truthy name, name_required_400);
    (truthy value, value_required_400);
    (truthy (JString (storeId params)), storeId_required_400);
    (existsb (store_where (storeId params) (userId (auth env))) (tblStore db),
     unauthorized_403) ].

(** The response of the first check that fails, if one does. *)
Fixpoint first_failing (checks : list (bool * NextResponse))
  : option NextResponse :=
  match checks with
  | [] => None
  | (passes, failure) :: rest =>
      if passes then first_failing rest else Some failure
  end.

(** The members of a body that the Create handler looks at. *)
Definition is_name_or_value (member : jsstring * JsValue) : bool :=
  bool_decide (fst member = js "name") || bool_decide (fst member = js "value").

(* ===================================================================== *)
(** ** The rule set of the form, in the words of the specification *)
(* ===================================================================== *)

(** No white space at the start and none at the end. *)
Definition no_outer_blanks (s : jsstring) : Prop :=
  (∀ c rest, s = c :: rest → is_white_space c = false)
  ∧ (∀ front c, s = front ++ [c] → is_white_space c = false).

(** Between [lo] and [hi] characters, all of the allowed alphabet, with no
    leading or trailing white space. *)
Definition well_formed (lo hi : nat) (s : jsstring) : Prop :=
  (lo ≤ List.length s ≤ hi)%nat
  ∧ (∀ c, c ∈ s → allowed_char c = true)
  ∧ no_outer_blanks s.

(** The JSON body [axios.post] sends for the values of the form. *)
Definition body_of (data : SizeFormValues) : Request :=
  {| req_body := Some (JObject [(js "name", JString (name data));
                                (js "value", JString (value data))]) |}.

(** The database once every Category that references the billboard is
    removed. *)
Definition without_categories_of (billboardId : jsstring) (db : Db) : Db :=
  mkDb (tblStore db) (tblBillboard db)
       (List.filter (λ c, negb (bool_decide (Category.billboardId c = billboardId)))
                    (tblCategory db))
       (tblSize db).

(* ===================================================================== *)
(** ** The color form (color-form.tsx) *)
(* ===================================================================== *)

(** The character class [[A-Fa-f0-9]], on code units. *)
Definition hex_digit (c : N) : bool :=
  (((65 <=? c) && (c <=? 70))           (* A-F *)
   || ((97 <=? c) && (c <=? 102))       (* a-f *)
   || ((48 <=? c) && (c <=? 57)))%N.    (* 0-9 *)

(** [/^#([A-Fa-f0-9]{6}|[A-Fa-f0-9]{3})$/.test(s)]: a [#] (code unit 35),
    then six digits of the class or three, and nothing else. *)
Definition hex_regex_test (s : jsstring) : bool :=
  match s with
  | 35%N :: digits =>
      ((List.length digits =? 6)%nat && forallb hex_digit digits)
      || ((List.length digits =? 3)%nat && forallb hex_digit digits)
  | _ => false
  end.

Definition msg_hex_code : string :=
  "Texto deve conter um código HEX válido (#add6e8)".

Module ColorForm.
Record Values := { name : jsstring; value : jsstring }.

(** [z.string().regex(hex).refine(v => v.trim() === v)]: the rule of
    [value]; both checks run. *)
Definition value_rule (s : jsstring) : list ZodIssue :=
  (if hex_regex_test s then [] else [invalid_string msg_hex_code])
  ++ (if bool_decide (trim s = s) then [] else [custom msg_no_outer_blanks]).

(** [formSchema.safeParse(data)] of the color form: [name] has the rule of
    the size form's [name]. *)
Definition formSchema (data : Values) : list (Field * ZodIssue) :=
  List.map (pair field_name) (string_rule 3 30 (name data))
  ++ List.map (pair field_value) (value_rule (value data)).
End ColorForm.

(** A hex colour in words: [#], then three or six characters out of
    [0123456789abcdefABCDEF]. *)
Definition is_hex_color (s : jsstring) : Prop :=
  ∃ digits, s = 35%N :: digits
            ∧ (List.length digits = 3%nat ∨ List.length digits = 6%nat)
            ∧ ∀ c, c ∈ digits → c ∈ js "0123456789abcdefABCDEF".

(* ===================================================================== *)
(** ** Requests one after the other *)
(* ===================================================================== *)

(** A request to [/api/{storeId}/sizes], with what it finds outside the
    handler. *)
Inductive Call : Type :=
| CallPOST (env : Env) (req : Request) (params : Params)
| CallGET (env : Env) (req : Request) (params : Params).

(** The route: [POST] or [GET] by the method of the request. *)
Definition serve (call : Call) : M NextResponse :=
  match call with
  | CallPOST env req params => POST env req params
  | CallGET env req params => GET env req params
  end.

(** The database after the calls, served in order. *)
Fixpoint serve_all (calls : list Call) (db : Db) : Db :=
  match calls with
  | [] => db
  | call :: rest => serve_all rest (snd (serve call db))
  end.

Definition is_POST (call : Call) : bool :=
  match call with CallPOST _ _ _ => true | CallGET _ _ _ => false end.

(** Every Size row references a Store row. *)
Definition sizes_reference_stores (db : Db) : Prop :=
  ∀ r, r ∈ tblSize db → ∃ s, s ∈ tblStore db ∧ Store.id s = Size.storeId r.

(** No two Size rows have the same [id]. *)
Definition size_ids_unique (db : Db) : Prop :=
  NoDup (List.map Size.id (tblSize db)).

(** More sample data: a second draw of [uuid()] and [now()], and values of
    the two forms. *)
Module Sample2.
Definition env2_of (uid : option jsstring) : Env :=
  {| auth := {| userId := uid |}; uuid := js "size-0002"; now := 1800 |}.

Definition at_store2 : Params := {| storeId := js "store2" |}.

Definition pequeno_values : SizeFormValues :=
  {| name := js "Pequeno"; value := js "S" |}.

End Sample2.

(* ===================================================================== *)
(** ** Lemmas on the gateway and on the handlers' control flow *)
(* ===================================================================== *)

Ltac run_handler :=
  unfold POST, GET, req_json, destructure_name_value,
    prismadb.store.findFirst, prismadb.size.create, prismadb.size.findMany in *;
  unfold try_catch, bind, ret, throw, get_db, put_db in *.

Lemma truthy_str_Some u : truthy_str (Some u) = true ↔ u ≠ [].
Proof.
  unfold truthy_str. case_bool_decide; simpl; split; intros; congruence.
Qed.

Lemma truthy_JString s : truthy (JString s) = true ↔ s ≠ [].
Proof. exact (truthy_str_Some s). Qed.

Lemma truthy_readable b k : truthy (get_prop b k) = true → readable b.
Proof. destruct b; simpl; intros H; (discriminate || (split; discriminate)). Qed.

Lemma readable_dec b : {readable b} + {¬ readable b}.
Proof.
  destruct b; try (left; split; discriminate); right; intros []; congruence.
Qed.

Lemma find_store_None db sid u :
  List.find (store_where sid (Some u)) (tblStore db) = None ↔ ¬ owns db u sid.
Proof.
  unfold owns, store_where. split.
  - intros Hf (s & Hin & Hid & Hu).
    apply list_elem_of_In in Hin.
    pose proof (find_none _ _ Hf s Hin) as Hs. simpl in Hs.
    rewrite !bool_decide_eq_true_2 in Hs by congruence. discriminate.
  - intros Hn. destruct (List.find _ _) as [s|] eqn:Hf; [|done].
    apply find_some in Hf as [Hin Hs]. exfalso. apply Hn. exists s.
    apply andb_prop in Hs as [H1 H2].
    apply bool_decide_eq_true in H1, H2.
    split; [by apply list_elem_of_In|]. split; congruence.
Qed.

Lemma find_store_Some db sid u s :
  List.find (store_where sid (Some u)) (tblStore db) = Some s →
  s ∈ tblStore db ∧ Store.id s = sid ∧ Store.userId s = u.
Proof.
  intros Hf. apply find_some in Hf as [Hin Hs]. unfold store_where in Hs.
  apply andb_prop in Hs as [H1 H2]. apply bool_decide_eq_true in H1, H2.
  split; [by apply list_elem_of_In|]. split; congruence.
Qed.

Lemma existsb_id_false env db :
  existsb (λ r, bool_decide (Size.id r = uuid env)) (tblSize db) = false
  ↔ fresh_id env db.
Proof.
  unfold fresh_id. split.
  - intros He r Hin Hid. apply list_elem_of_In in Hin.
    assert (existsb (λ r, bool_decide (Size.id r = uuid env)) (tblSize db) = true)
      as Ht; [|congruence].
    apply existsb_exists. exists r. split; [done|]. by apply bool_decide_eq_true.
  - intros Hfresh. destruct (existsb _ _) eqn:He; [|done].
    apply existsb_exists in He as (r & Hin & Hr).
    apply bool_decide_eq_true in Hr. apply list_elem_of_In in Hin.
    by apply Hfresh in Hin.
Qed.

(** What [POST] computes on a body it can destructure, check by check. *)
Lemma POST_run env req params db b :
  req_body req = Some b → readable b →
  POST env req params db =
    let uid := userId (auth env) in
    let name := get_prop b (js "name") in
    let value := get_prop b (js "value") in
    if negb (truthy_str uid) then (Normal unauthenticated_401, db)
    else if negb (truthy name) then (Normal name_required_400, db)
    else if negb (truthy value) then (Normal value_required_400, db)
    else if negb (truthy (JString (storeId params)))
         then (Normal storeId_required_400, db)
    else match List.find (store_where (storeId params) uid) (tblStore db) with
         | None => (Normal unauthorized_403, db)
         | Some _ =>
             match name, value with
             | JString n, JString v =>
                 if negb (fits_String n && fits_String v)
                 then (Normal internal_error_500, db)
                 else if existsb (λ r, bool_decide (Size.id r = uuid env))
                                 (tblSize db)
                 then (Normal internal_error_500, db)
                 else (Normal (NextResponse_json
                                 (JsonSize (new_size env (storeId params) n v))),
                       with_size db (new_size env (storeId params) n v))
             | _, _ => (Normal internal_error_500, db)
             end
         end.
Proof.
  intros Hb [Hnull Hundef]. run_handler. rewrite Hb. cbv zeta.
  fold (store_where (storeId params) (userId (auth env))).
  generalize (get_prop b (js "name")) (get_prop b (js "value")).
  intros nm vl.
  destruct b; try congruence; cbv beta iota.
  all: destruct (negb (truthy_str _)); [done|];
    destruct (negb (truthy nm)); [done|];
    destruct (negb (truthy vl)); [done|];
    destruct (negb (truthy _)); [done|];
    destruct (List.find _ _); [|done];
    destruct nm; try done; destruct vl; try done;
    destruct (negb (fits_String _ && fits_String _)); [done|];
    by destruct (existsb _ _).
Qed.

Lemma POST_not_json env req params db :
  req_body req = None → POST env req params db = (Normal internal_error_500, db).
Proof. intros Hb. run_handler. by rewrite Hb. Qed.

Lemma POST_null env req params db b :
  req_body req = Some b → ¬ readable b →
  POST env req params db = (Normal internal_error_500, db).
Proof.
  intros Hb Hn. run_handler. rewrite Hb.
  destruct b; try reflexivity; exfalso; apply Hn; split; discriminate.
Qed.

(* ===================================================================== *)
(** ** Facts on the sample data *)
(* ===================================================================== *)

Lemma sample_u1_owns : owns Sample.db0 Sample.u1 (js "store1").
Proof.
  exists Sample.store1. split; [apply list_elem_of_here|]. split; reflexivity.
Qed.

Lemma sample_u2_not_owner : ¬ owns Sample.db0 Sample.u2 (js "store1").
Proof.
  intros (s & Hin & _ & Hown). vm_compute in Hin.
  apply list_elem_of_singleton in Hin. subst s. discriminate Hown.
Qed.

Lemma sample_no_store u sid : ¬ owns Sample.db_empty u sid.
Proof. intros (s & Hin & _). vm_compute in Hin. inversion Hin. Qed.

Lemma sample_fresh uid : fresh_id (Sample.env_of uid) Sample.db0.
Proof. intros r Hin. vm_compute in Hin. inversion Hin. Qed.

(* ===================================================================== *)
(** ** Properties of the sizes endpoint *)
(* ===================================================================== *)

(** C1.  An authenticated Create request with non-empty name, value and
    storeId for which no Store row matches both [id = storeId] and [userId]
    gets the 403 response and changes nothing; in particular a store that
    does not exist and a store that another user owns get the same
    response. *)
Theorem POST_forbidden_hides_existence env req params b u :
  userId (auth env) = Some u → u ≠ [] →
  req_body req = Some b →
  truthy (get_prop b (js "name")) = true →
  truthy (get_prop b (js "value")) = true →
  storeId params ≠ [] →
  (∀ db, ¬ owns db u (storeId params) →
         POST env req params db = (Normal unauthorized_403, db))
  ∧ status unauthorized_403 = 403
  ∧ (∀ db_absent db_foreign,
       (∀ s, s ∈ tblStore db_absent → Store.id s ≠ storeId params) →
       (∃ s, s ∈ tblStore db_foreign ∧ Store.id s = storeId params) →
       (∀ s, s ∈ tblStore db_foreign → Store.id s = storeId params →
             Store.userId s ≠ u) →
       fst (POST env req params db_absent) = fst (POST env req params db_foreign)).
Proof.
  intros Hu Hne Hb Hname Hvalue Hsid.
  assert (∀ db, ¬ owns db u (storeId params) →
                POST env req params db = (Normal unauthorized_403, db)) as H403.
  { intros db Hno.
    rewrite (POST_run env req params db b Hb (truthy_readable _ _ Hname)).
    cbv zeta. rewrite Hu.
    apply truthy_str_Some in Hne as ->. rewrite Hname, Hvalue.
    apply truthy_JString in Hsid as ->. simpl.
    apply find_store_None in Hno. by rewrite Hno. }
  split; [done|]. split; [done|].
  intros db1 db2 Habs _ Hforeign.
  rewrite !H403; [done| |].
  - intros (s & Hin & Hid & Hown). by apply (Hforeign s).
  - intros (s & Hin & Hid & Hown). by apply (Habs s).
Qed.

(** [user_2] asks for a size in [store1]: the same 403 whether the store
    table is empty or holds [store1] of [user_1]. *)
Lemma POST_forbidden_hides_existence_witness :
  POST (Sample.env_of (Some Sample.u2)) Sample.pequeno Sample.at_store1
       Sample.db_empty
  = (Normal unauthorized_403, Sample.db_empty)
  ∧ POST (Sample.env_of (Some Sample.u2)) Sample.pequeno Sample.at_store1
         Sample.db0
    = (Normal unauthorized_403, Sample.db0)
  ∧ fst (POST (Sample.env_of (Some Sample.u2)) Sample.pequeno Sample.at_store1
              Sample.db_empty)
    = fst (POST (Sample.env_of (Some Sample.u2)) Sample.pequeno
                Sample.at_store1 Sample.db0).
Proof.
  destruct (POST_forbidden_hides_existence
              (Sample.env_of (Some Sample.u2)) Sample.pequeno Sample.at_store1
              (Sample.object [("name"%string, JString (js "Pequeno"));
                              ("value"%string, JString (js "S"))])
              Sample.u2)
    as (H403 & _ & Hsame);
    [reflexivity | discriminate | reflexivity | reflexivity | reflexivity
    | discriminate |].
  split; [|split].
  - apply H403, sample_no_store.
  - apply H403, sample_u2_not_owner.
  - apply Hsame.
    + intros s Hin. vm_compute in Hin. inversion Hin.
    + exists Sample.store1. split; [apply list_elem_of_here | reflexivity].
    + intros s Hin _. vm_compute in Hin.
      apply list_elem_of_singleton in Hin. subst s. discriminate.
Defined.

(** A property that the body does not have reads as [undefined], which is
    falsy: a missing field is one of the fields [!field] rejects. *)
Lemma missing_prop_falsy props k :
  lookup_prop k props = None → truthy (get_prop (JObject props) k) = false.
Proof. intros H. simpl. by rewrite H. Qed.

(** C3, counterexample.  A request without [name] from a caller who is not
    signed in is answered 401, not 400. *)
Lemma POST_missing_name_unauthenticated :
  lookup_prop (js "name")
    [(js "value", JString (js "S"))] = None
  ∧ POST (Sample.env_of None)
         (Sample.post [("value"%string, JString (js "S"))])
         Sample.at_store1 Sample.db0
    = (Normal unauthenticated_401, Sample.db0)
  ∧ status unauthenticated_401 ≠ 400.
Proof. split; [reflexivity|]. split; [reflexivity|discriminate]. Qed.

(** C3, amended.  A Create request in which [name] or [value] is missing
    (or otherwise falsy) never changes the database, whoever sends it and
    whatever its body.  When the request is authenticated and the body is
    JSON other than null, the response is 400 and names the first such
    field: "name is required!", else "value is required!".  When the caller
    is not signed in and the body is JSON other than null, the response is
    401 instead. *)
Theorem POST_missing_field_bad_request env req params db :
  (∀ b, req_body req = Some b →
        truthy (get_prop b (js "name")) = false
        ∨ truthy (get_prop b (js "value")) = false) →
  snd (POST env req params db) = db
  ∧ (∀ b u, req_body req = Some b → readable b →
            userId (auth env) = Some u → u ≠ [] →
            (truthy (get_prop b (js "name")) = false →
               POST env req params db = (Normal name_required_400, db))
            ∧ (truthy (get_prop b (js "name")) = true →
               POST env req params db = (Normal value_required_400, db)))
  ∧ (∀ b, req_body req = Some b → readable b →
          truthy_str (userId (auth env)) = false →
          POST env req params db = (Normal unauthenticated_401, db))
  ∧ name_required_400 = {| body := Text "name is required!"; status := 400 |}
  ∧ value_required_400 = {| body := Text "value is required!"; status := 400 |}
  ∧ unauthenticated_401 = {| body := Text "Unauthenticated"; status := 401 |}.
Proof.
  intros Hmissing. split; [|split; [|split; [|done]]].
  - destruct (req_body req) as [b|] eqn:Hb.
    2: { by rewrite POST_not_json. }
    destruct (readable_dec b) as [Hread|Hnull].
    2: { by rewrite (POST_null _ _ _ _ b). }
    rewrite (POST_run env req params db b Hb Hread). cbv zeta.
    destruct (negb (truthy_str _)); [done|].
    destruct (Hmissing b eq_refl) as [-> | ->]; [done|].
    by destruct (negb (truthy _)).
  - intros b u Hb Hread Hu Hne.
    rewrite (POST_run env req params db b Hb Hread). cbv zeta. rewrite Hu.
    apply truthy_str_Some in Hne as ->. cbn [negb].
    split; [by intros ->|]. intros Hname. rewrite Hname. cbn [negb].
    destruct (Hmissing b Hb) as [Hn|Hv]; [congruence|by rewrite Hv].
  - intros b Hb Hread Hanon.
    rewrite (POST_run env req params db b Hb Hread). cbv zeta.
    by rewrite Hanon.
Qed.

(** [user_1] sends a body without [name], then one without [value]. *)
Lemma POST_missing_field_bad_request_witness :
  POST (Sample.env_of (Some Sample.u1))
       (Sample.post [("value"%string, JString (js "S"))])
       Sample.at_store1 Sample.db0
  = (Normal name_required_400, Sample.db0)
  ∧ POST (Sample.env_of (Some Sample.u1))
         (Sample.post [("name"%string, JString (js "Pequeno"))])
         Sample.at_store1 Sample.db0
    = (Normal value_required_400, Sample.db0).
Proof.
  split.
  - destruct (POST_missing_field_bad_request
                (Sample.env_of (Some Sample.u1))
                (Sample.post [("value"%string, JString (js "S"))])
                Sample.at_store1 Sample.db0) as (_ & H400 & _).
    + intros b [= <-]. left. reflexivity.
    + apply (H400 _ Sample.u1 eq_refl);
        [split; discriminate | reflexivity | discriminate | reflexivity].
  - destruct (POST_missing_field_bad_request
                (Sample.env_of (Some Sample.u1))
                (Sample.post [("name"%string, JString (js "Pequeno"))])
                Sample.at_store1 Sample.db0) as (_ & H400 & _).
    + intros b [= <-]. right. reflexivity.
    + apply (H400 _ Sample.u1 eq_refl);
        [split; discriminate | reflexivity | discriminate | reflexivity].
Defined.

(** The final database of [POST] when the caller does not own the store. *)
Lemma POST_not_owner_db env req params db :
  (∀ u, userId (auth env) = Some u → ¬ owns db u (storeId params)) →
  snd (POST env req params db) = db.
Proof.
  intros Hno. destruct (req_body req) as [b|] eqn:Hb.
  2: by rewrite POST_not_json.
  destruct (readable_dec b) as [Hread|Hnull].
  2: by rewrite (POST_null _ _ _ _ b).
  rewrite (POST_run env req params db b Hb Hread). cbv zeta.
  destruct (userId (auth env)) as [u|] eqn:Hu; [|done].
  specialize (Hno u eq_refl). apply find_store_None in Hno. rewrite Hno.
  repeat (match goal with |- context [if ?c then _ else _] => destruct c end;
          try reflexivity).
Qed.

(** C4, counterexample.  [user_2] is signed in and does not own [store1];
    the request has no [name]: the response is 400, not 403. *)
Lemma POST_foreign_store_missing_name :
  ¬ owns Sample.db0 Sample.u2 (storeId Sample.at_store1)
  ∧ POST (Sample.env_of (Some Sample.u2)) (Sample.post []) Sample.at_store1
         Sample.db0
    = (Normal name_required_400, Sample.db0)
  ∧ status name_required_400 ≠ 403.
Proof.
  split; [apply sample_u2_not_owner|]. split; [reflexivity|discriminate].
Qed.

(** C4, amended.  A Create request by an authenticated user for a store
    that this user does not own (no such store, or a store of another user)
    leaves the database unchanged: the ownership lookup writes nothing and
    the row is never created.  When [name], [value] and [storeId] are
    non-empty the response is 403. *)
Theorem POST_foreign_store_persists_nothing env req params db u :
  userId (auth env) = Some u → u ≠ [] →
  ¬ owns db u (storeId params) →
  snd (POST env req params db) = db
  ∧ (∀ where_, snd (prismadb.store.findFirst where_ db) = db)
  ∧ (∀ b, req_body req = Some b →
          truthy (get_prop b (js "name")) = true →
          truthy (get_prop b (js "value")) = true →
          storeId params ≠ [] →
          POST env req params db = (Normal unauthorized_403, db))
  ∧ status unauthorized_403 = 403.
Proof.
  intros Hu Hne Hno. split; [|split; [done|split; [|done]]].
  - apply POST_not_owner_db. intros u' Hu'. congruence.
  - intros b Hb Hname Hvalue Hsid.
    rewrite (POST_run env req params db b Hb (truthy_readable _ _ Hname)).
    cbv zeta. rewrite Hu. apply truthy_str_Some in Hne as ->.
    rewrite Hname, Hvalue. apply truthy_JString in Hsid as ->. simpl.
    apply find_store_None in Hno. by rewrite Hno.
Qed.

(** [user_2] sends a complete body for [store1] of [user_1]. *)
Lemma POST_foreign_store_persists_nothing_witness :
  snd (POST (Sample.env_of (Some Sample.u2)) Sample.pequeno Sample.at_store1
            Sample.db0) = Sample.db0
  ∧ POST (Sample.env_of (Some Sample.u2)) Sample.pequeno Sample.at_store1
         Sample.db0
    = (Normal unauthorized_403, Sample.db0).
Proof.
  destruct (POST_foreign_store_persists_nothing
              (Sample.env_of (Some Sample.u2)) Sample.pequeno Sample.at_store1
              Sample.db0 Sample.u2) as (Hdb & _ & H403 & _);
    [reflexivity | discriminate | apply sample_u2_not_owner |].
  split; [exact Hdb|].
  apply (H403 _ eq_refl); [reflexivity | reflexivity | discriminate].
Defined.

Lemma existsb_store_where db sid u :
  existsb (store_where sid (Some u)) (tblStore db) = true ↔ owns db u sid.
Proof.
  destruct (List.find (store_where sid (Some u)) (tblStore db)) as [s|] eqn:Hf.
  - split; intros _.
    + exists s. by apply find_store_Some.
    + apply find_some in Hf as [Hin Hs]. apply existsb_exists. eauto.
  - pose proof Hf as Hno. apply find_store_None in Hno. split; [|done].
    intros (s & Hin & Hs)%existsb_exists.
    by rewrite (find_none _ _ Hf s Hin) in Hs.
Qed.

Lemma existsb_find_store db sid uid :
  existsb (store_where sid uid) (tblStore db)
  = bool_decide (is_Some (List.find (store_where sid uid) (tblStore db))).
Proof.
  induction (tblStore db) as [|s l IH].
  { symmetry. apply bool_decide_eq_false_2. by intros [? [=]]. }
  cbn [existsb List.find]. destruct (store_where sid uid s); [|exact IH].
  symmetry. apply bool_decide_eq_true_2. by eexists.
Qed.

Lemma with_size_neq db row : with_size db row ≠ db.
Proof.
  intros Heq. apply (f_equal tblSize) in Heq. simpl in Heq.
  apply (f_equal List.length) in Heq. rewrite length_app in Heq. simpl in Heq.
  lia.
Qed.

(** C5.  The first check of Create is the one on [userId], answered 401
    (the source says so above it: "If the user is not logged in, throw
    error 401").  But the body is awaited and destructured before that
    check, inside the [try]: a caller who is not signed in and sends a body
    that is not JSON gets 500 "Internal error". *)
Lemma POST_unauthenticated_not_json :
  truthy_str (userId (auth (Sample.env_of None))) = false
  ∧ POST (Sample.env_of None) {| req_body := None |} Sample.at_store1
         Sample.db0
    = (Normal internal_error_500, Sample.db0)
  ∧ status internal_error_500 ≠ 401.
Proof. split; [reflexivity|]. split; [reflexivity|discriminate]. Qed.

(** X12.  On a body that is JSON other than null, Create checks
    authentication (401), presence of [name] (400) and of [value] (400),
    presence of [storeId] (400) and ownership of the store (403), in this
    order, and the first check that fails alone gives the response, the
    database staying as it was.  A row is persisted only when all checks
    pass; it is persisted then if [name] and [value] are strings that fit
    their columns and the generated identifier is unused, it has that
    identifier, the [storeId] of the path and the current time as
    [createdAt] and [updatedAt], and it is the body of the response. *)
Theorem POST_first_failing_check env req params db b :
  req_body req = Some b → readable b →
  let name := get_prop b (js "name") in
  let value := get_prop b (js "value") in
  let checks := create_checks env params db name value in
  List.map (λ c, status (snd c)) checks = [401; 400; 400; 400; 403]
  ∧ (∀ failure, first_failing checks = Some failure →
       POST env req params db = (Normal failure, db))
  ∧ (∀ n v, first_failing checks = None →
       name = JString n → value = JString v →
       fits_String n = true → fits_String v = true → fresh_id env db →
       let row := new_size env (storeId params) n v in
       POST env req params db
       = (Normal (NextResponse_json (JsonSize row)), with_size db row)
       ∧ Size.id row = uuid env ∧ Size.storeId row = storeId params
       ∧ Size.createdAt row = now env ∧ Size.updatedAt row = now env)
  ∧ (snd (POST env req params db) ≠ db →
       first_failing checks = None
       ∧ ∃ n v, name = JString n ∧ value = JString v
                ∧ POST env req params db
                  = (Normal (NextResponse_json
                               (JsonSize (new_size env (storeId params) n v))),
                     with_size db (new_size env (storeId params) n v))).
Proof.
  intros Hb Hread name value checks. split; [done|].
  rewrite (POST_run env req params db b Hb Hread). cbv zeta.
  fold name value. subst checks. unfold create_checks, first_failing.
  rewrite existsb_find_store.
  destruct (truthy_str _); cbn [negb].
  2: { split; [by intros ? [= <-]|]. split; [done|]. by intros []. }
  destruct (truthy name); cbn [negb].
  2: { split; [by intros ? [= <-]|]. split; [done|]. by intros []. }
  destruct (truthy value); cbn [negb].
  2: { split; [by intros ? [= <-]|]. split; [done|]. by intros []. }
  destruct (truthy (JString _)); cbn [negb].
  2: { split; [by intros ? [= <-]|]. split; [done|]. by intros []. }
  destruct (List.find _ _) as [s|].
  2: { rewrite bool_decide_eq_false_2 by (by intros [? [=]]).
       split; [by intros ? [= <-]|]. split; [done|]. by intros []. }
  rewrite bool_decide_eq_true_2 by (by eexists).
  split; [done|]. split.
  - intros n v _ -> -> -> -> Hfresh. apply existsb_id_false in Hfresh.
    by rewrite Hfresh.
  - intros Hchg. split; [done|].
    destruct name; try done. destruct value; try done.
    destruct (negb (fits_String _ && fits_String _)); [done|].
    destruct (existsb _ _); [done|]. eauto.
Qed.

(** The example of the specification, sent by the owner and then by
    nobody. *)
Lemma POST_first_failing_check_witness :
  POST (Sample.env_of (Some Sample.u1)) Sample.pequeno Sample.at_store1
       Sample.db0
  = (Normal (NextResponse_json (JsonSize Sample.size1)),
     with_size Sample.db0 Sample.size1)
  ∧ POST (Sample.env_of None) Sample.pequeno Sample.at_store1 Sample.db0
    = (Normal unauthenticated_401, Sample.db0).
Proof.
  split.
  - destruct (POST_first_failing_check
                (Sample.env_of (Some Sample.u1)) Sample.pequeno
                Sample.at_store1 Sample.db0
                (Sample.object [("name"%string, JString (js "Pequeno"));
                                ("value"%string, JString (js "S"))])
                eq_refl) as (_ & _ & Hpass & _); [split; discriminate|].
    apply (Hpass (js "Pequeno") (js "S")); [reflexivity..|].
    apply sample_fresh.
  - destruct (POST_first_failing_check
                (Sample.env_of None) Sample.pequeno
                Sample.at_store1 Sample.db0
                (Sample.object [("name"%string, JString (js "Pequeno"));
                                ("value"%string, JString (js "S"))])
                eq_refl) as (_ & Hfail & _); [split; discriminate|].
    apply Hfail. reflexivity.
Defined.

(** C6.  List: an empty [storeId] is answered 400; otherwise the response
    is 200 with exactly the Size rows whose [storeId] is the one of the path
    (all of them, no others), the database is unchanged, and neither the
    caller's session nor any other table has a part in the answer. *)
Theorem GET_lists_sizes_of_store env req params db :
  (storeId params = [] →
     GET env req params db = (Normal storeId_required_400, db))
  ∧ (storeId params ≠ [] →
     ∃ rows,
       GET env req params db = (Normal (NextResponse_json (JsonSizes rows)), db)
       ∧ rows = List.filter (λ r, bool_decide (Size.storeId r = storeId params))
                            (tblSize db)
       ∧ ∀ r, r ∈ rows ↔ r ∈ tblSize db ∧ Size.storeId r = storeId params)
  ∧ (∀ env' req' db',
       tblSize db' = tblSize db →
       fst (GET env' req' params db') = fst (GET env req params db))
  ∧ status storeId_required_400 = 400.
Proof.
  split; [|split; [|split; [|done]]].
  - intros Hsid. run_handler. simpl. by rewrite Hsid.
  - intros Hsid. eexists. split; [|split; [reflexivity|]].
    + run_handler. apply truthy_JString in Hsid as ->. reflexivity.
    + intros r. rewrite list_elem_of_In, filter_In, bool_decide_eq_true.
      by rewrite <- list_elem_of_In.
  - intros env' req' db' Htbl. run_handler.
    destruct (negb _); [done|]. simpl. by rewrite Htbl.
Qed.

(** Of two sizes in two stores, the list for [store1] has the one of
    [store1]; the caller is not signed in. *)
Lemma GET_lists_sizes_of_store_witness :
  GET (Sample.env_of None) {| req_body := None |} Sample.at_store1
      Sample.db_sizes
  = (Normal (NextResponse_json (JsonSizes [Sample.size1])), Sample.db_sizes).
Proof.
  destruct (proj1 (proj2 (GET_lists_sizes_of_store
                            (Sample.env_of None) {| req_body := None |}
                            Sample.at_store1 Sample.db_sizes)))
    as (rows & Hget & Hrows & _); [discriminate|].
  rewrite Hget, Hrows. reflexivity.
Defined.

Lemma find_app_fresh {A} (f : A → bool) (l : list A) (x : A) :
  existsb f l = false → f x = true → List.find f (l ++ [x]) = Some x.
Proof.
  induction l as [|a l IH]; simpl; intros He Hx; [by rewrite Hx|].
  apply orb_false_elim in He as [-> He]. by apply IH.
Qed.

(** What a Create that changed the database did. *)
Lemma POST_created env req params db :
  snd (POST env req params db) ≠ db →
  ∃ b n v u s,
    req_body req = Some b
    ∧ get_prop b (js "name") = JString n ∧ n ≠ []
    ∧ get_prop b (js "value") = JString v ∧ v ≠ []
    ∧ userId (auth env) = Some u ∧ u ≠ []
    ∧ s ∈ tblStore db ∧ Store.id s = storeId params ∧ Store.userId s = u
    ∧ fresh_id env db
    ∧ POST env req params db
      = (Normal (NextResponse_json
                   (JsonSize (new_size env (storeId params) n v))),
         with_size db (new_size env (storeId params) n v)).
Proof.
  intros Hchg. destruct (req_body req) as [b|] eqn:Hb.
  2: { by rewrite POST_not_json in Hchg. }
  destruct (readable_dec b) as [Hread|Hnull].
  2: { by rewrite (POST_null _ _ _ _ b) in Hchg. }
  revert Hchg. rewrite (POST_run env req params db b Hb Hread). cbv zeta.
  destruct (userId (auth env)) as [u|] eqn:Hu; [|done].
  destruct (truthy_str (Some u)) eqn:Hut; [|done]. cbn [negb].
  destruct (truthy (get_prop b (js "name"))) eqn:Hname; [|done].
  destruct (truthy (get_prop b (js "value"))) eqn:Hvalue; [|done].
  destruct (truthy (JString _)) eqn:Hsid; [|done]. cbn [negb].
  destruct (List.find _ _) as [s|] eqn:Hfind; [|done].
  destruct (get_prop b (js "name")) as [| | | |n| |] eqn:Hn; try done.
  destruct (get_prop b (js "value")) as [| | | |v| |] eqn:Hv; try done.
  destruct (negb (fits_String n && fits_String v)); [done|].
  destruct (existsb _ _) eqn:Hex; [done|]. intros _.
  apply find_store_Some in Hfind as (Hin & Hid & Hown).
  exists b, n, v, u, s.
  rewrite truthy_str_Some in Hut. rewrite truthy_JString in Hname, Hvalue.
  by rewrite existsb_id_false in Hex.
Qed.

Lemma POST_status_200 env req params db resp db' :
  POST env req params db = (Normal resp, db') → status resp = 200 → db' ≠ db.
Proof.
  intros HP Hst. destruct (req_body req) as [b|] eqn:Hb.
  2: { rewrite POST_not_json in HP by done. by injection HP as <- <-. }
  destruct (readable_dec b) as [Hread|Hnull].
  2: { rewrite (POST_null _ _ _ _ b) in HP by done. by injection HP as <- <-. }
  revert HP. rewrite (POST_run env req params db b Hb Hread). cbv zeta.
  repeat (match goal with
          | |- context [if ?c then _ else _] => destruct c
          | |- context [match ?x with _ => _ end] => destruct x
          end;
          try (intros [= <- <-]; first [discriminate Hst | apply with_size_neq])).
Qed.

(** C7.  Round trip: after a successful Create (status 200) the response
    carries the new row, whose [name] and [value] are those of the request
    body and whose [storeId] is that of the path; a Get of the row's
    identifier on the resulting database returns this row, and its
    [createdAt] is at most its [updatedAt]. *)
Theorem create_then_get env req params db resp db' :
  POST env req params db = (Normal resp, db') → status resp = 200 →
  ∃ row b,
    body resp = JsonSize row
    ∧ req_body req = Some b
    ∧ get_prop b (js "name") = JString (Size.name row)
    ∧ get_prop b (js "value") = JString (Size.value row)
    ∧ Size.storeId row = storeId params
    ∧ Get (storeId params) (Size.id row) db' = (Normal (Ok row), db')
    ∧ (Size.createdAt row ≤ Size.updatedAt row)%Z.
Proof.
  intros HP Hst. pose proof (POST_status_200 _ _ _ _ _ _ HP Hst) as Hchg.
  destruct (POST_created env req params db) as
    (b & n & v & u & s & Hb & Hn & _ & Hv & _ & _ & _ & _ & _ & _ & Hfresh & HP').
  { by rewrite HP. }
  rewrite HP in HP'. injection HP' as -> ->.
  exists (new_size env (storeId params) n v), b.
  repeat (split; [done|]). split; [|simpl; lia].
  unfold Get, bind, get_db, ret. simpl.
  rewrite find_app_fresh; [done| |by apply bool_decide_eq_true].
  by apply existsb_id_false.
Qed.

(** The example of the specification: create in [store1], then get. *)
Lemma create_then_get_witness :
  Get (js "store1") (js "size-0001") (with_size Sample.db0 Sample.size1)
  = (Normal (Ok Sample.size1), with_size Sample.db0 Sample.size1)
  ∧ Size.name Sample.size1 = js "Pequeno"
  ∧ Size.value Sample.size1 = js "S"
  ∧ Size.storeId Sample.size1 = js "store1".
Proof.
  destruct (create_then_get
              (Sample.env_of (Some Sample.u1)) Sample.pequeno Sample.at_store1
              Sample.db0 (NextResponse_json (JsonSize Sample.size1))
              (with_size Sample.db0 Sample.size1) eq_refl eq_refl)
    as (row & b & Hbody & Hb & Hname & Hvalue & Hsid & Hget & _).
  injection Hbody as <-. split; [exact Hget|]. repeat split; reflexivity.
Defined.

(** The two ways a Create can end. *)
Lemma POST_db_cases env req params db :
  snd (POST env req params db) = db
  ∨ ∃ n v u,
      snd (POST env req params db)
      = with_size db (new_size env (storeId params) n v)
      ∧ userId (auth env) = Some u ∧ u ≠ []
      ∧ owns db u (storeId params).
Proof.
  destruct (req_body req) as [b|] eqn:Hb.
  2: { left. by rewrite POST_not_json. }
  destruct (readable_dec b) as [Hread|Hnull].
  2: { left. by rewrite (POST_null _ _ _ _ b). }
  rewrite (POST_run env req params db b Hb Hread). cbv zeta.
  destruct (userId (auth env)) as [u|] eqn:Hu; [|by left].
  destruct (truthy_str (Some u)) eqn:Hut; [|by left]. cbn [negb].
  destruct (negb (truthy (get_prop b (js "name")))); [by left|].
  destruct (negb (truthy (get_prop b (js "value")))); [by left|].
  destruct (negb (truthy (JString _))); [by left|].
  destruct (List.find _ _) as [s|] eqn:Hfind; [|by left].
  destruct (get_prop b (js "name")) as [| | | |n| |]; try by left.
  destruct (get_prop b (js "value")) as [| | | |v| |]; try by left.
  destruct (negb (fits_String n && fits_String v)); [by left|].
  destruct (existsb _ _); [by left|]. right.
  apply find_store_Some in Hfind. apply truthy_str_Some in Hut.
  exists n, v, u. repeat (split; [done|]). by exists s.
Qed.

(** C9.  Whatever the request, Create leaves the Store table alone and
    either leaves the Size table alone or appends one row; in the second
    case the caller is signed in and the row's [storeId] is the [id] of a
    Store row that, in the database the request found, belongs to the
    caller.  So a database in which every Size row references a Store row
    stays one. *)
Theorem POST_size_references_owned_store env req params db :
  let db' := snd (POST env req params db) in
  tblStore db' = tblStore db
  ∧ (tblSize db' = tblSize db
     ∨ ∃ row u,
         tblSize db' = tblSize db ++ [row]
         ∧ userId (auth env) = Some u ∧ u ≠ []
         ∧ owns db u (Size.storeId row))
  ∧ ((∀ r, r ∈ tblSize db → ∃ s, s ∈ tblStore db ∧ Store.id s = Size.storeId r) →
     (∀ r, r ∈ tblSize db' → ∃ s, s ∈ tblStore db' ∧ Store.id s = Size.storeId r)).
Proof.
  intros db'.
  destruct (POST_db_cases env req params db)
    as [Hsame|(n & v & u & Hnew & Hu & Hne & Hown)]; subst db'.
  - rewrite Hsame. split; [done|]. split; [by left|done].
  - rewrite Hnew. split; [done|]. split.
    + right. by exists (new_size env (storeId params) n v), u.
    + intros Hinv r [Hin|Hin]%elem_of_app; [by apply Hinv|].
      apply list_elem_of_singleton in Hin as ->.
      destruct Hown as (s & Hin & Hid & _). by exists s.
Qed.

(** The row the owner creates references the owner's store. *)
Lemma POST_size_references_owned_store_witness :
  tblSize (snd (POST (Sample.env_of (Some Sample.u1)) Sample.pequeno
                     Sample.at_store1 Sample.db0))
  = [Sample.size1]
  ∧ ∃ u, userId (auth (Sample.env_of (Some Sample.u1))) = Some u
         ∧ owns Sample.db0 u (Size.storeId Sample.size1).
Proof.
  destruct (POST_size_references_owned_store
              (Sample.env_of (Some Sample.u1)) Sample.pequeno Sample.at_store1
              Sample.db0) as (_ & [Hsame|(row & u & Hrow & Hu & _ & Hown)] & _).
  - discriminate Hsame.
  - split; [reflexivity|]. exists u. split; [exact Hu|].
    injection Hrow as <-. exact Hown.
Defined.

(** X1.  Create always answers: the handler catches what its body throws.
    A body that cannot be read (it is not JSON, or it is null) is answered
    500 "Internal error" with nothing changed.  Whatever the request, the
    status is one of 200, 400, 401, 403 and 500, it is 200 exactly when a
    row was persisted, and a 500 is always the "Internal error" of the
    catch. *)
Theorem POST_always_responds env req params db :
  (∃ resp db',
     POST env req params db = (Normal resp, db')
     ∧ status resp ∈ [200; 400; 401; 403; 500]
     ∧ (status resp = 200 ↔ db' ≠ db)
     ∧ (status resp = 500 → resp = internal_error_500))
  ∧ ((∀ b, req_body req = Some b → ¬ readable b) →
     POST env req params db = (Normal internal_error_500, db)).
Proof.
  split.
  2: { intros Hno. destruct (req_body req) as [b|] eqn:Hb.
       - apply (POST_null _ _ _ _ b Hb). by apply Hno.
       - by apply POST_not_json. }
  assert (∀ resp, resp ∈ [unauthenticated_401; name_required_400;
                           value_required_400; storeId_required_400;
                           unauthorized_403; internal_error_500] →
                  status resp ∈ [200; 400; 401; 403; 500]
                  ∧ (status resp = 200 ↔ db ≠ db)
                  ∧ (status resp = 500 → resp = internal_error_500)) as Hfail.
  { intros resp Hin. apply list_elem_of_In in Hin. simpl in Hin.
    repeat (destruct Hin as [<-|Hin];
            [split; [apply list_elem_of_In; simpl; auto 10|];
             split; [by split|done]|]).
    destruct Hin. }
  destruct (req_body req) as [b|] eqn:Hb.
  2: { rewrite POST_not_json by done. do 2 eexists. split; [done|].
       apply Hfail, list_elem_of_In. simpl. auto 10. }
  destruct (readable_dec b) as [Hread|Hnull].
  2: { rewrite (POST_null _ _ _ _ b) by done. do 2 eexists. split; [done|].
       apply Hfail, list_elem_of_In. simpl. auto 10. }
  rewrite (POST_run env req params db b Hb Hread). cbv zeta.
  repeat (match goal with
          | |- context [if ?c then _ else _] => destruct c
          | |- context [match ?x with _ => _ end] => destruct x
          end;
          try (do 2 eexists; split; [reflexivity|];
               first [ by (apply Hfail, list_elem_of_In; simpl; auto 10)
                     | split; [apply list_elem_of_here|];
                       split; [by split; [intros _; apply with_size_neq|]
                              | done] ])).
Qed.

Lemma lookup_prop_filter k props (keep : jsstring * JsValue → bool) :
  (∀ v, keep (k, v) = true) →
  lookup_prop k (List.filter keep props) = lookup_prop k props.
Proof.
  intros Hkeep. induction props as [|[k' v] rest IH]; [done|]. simpl.
  destruct (keep (k', v)) eqn:Hk; simpl; rewrite IH; [done|].
  destruct (lookup_prop k rest); [done|].
  rewrite bool_decide_eq_false_2; [done|]. intros ->. congruence.
Qed.

Lemma get_prop_name_filter props :
  get_prop (JObject (List.filter is_name_or_value props)) (js "name")
  = get_prop (JObject props) (js "name").
Proof.
  simpl. rewrite lookup_prop_filter; [done|]. intros v. reflexivity.
Qed.

Lemma get_prop_value_filter props :
  get_prop (JObject (List.filter is_name_or_value props)) (js "value")
  = get_prop (JObject props) (js "value").
Proof.
  simpl. rewrite lookup_prop_filter; [done|]. intros v. reflexivity.
Qed.

(** C10.  Create reads the [name] and [value] members of the body and
    nothing else of it: two bodies with the same [name] and [value] members,
    whatever their other members ([storeId], [id], [createdAt],
    [updatedAt], ...), get the same response and leave the same database;
    and the [storeId] of a created row is the one of the path. *)
Theorem POST_reads_name_and_value_only env params db :
  (∀ props1 props2,
     List.filter is_name_or_value props1 = List.filter is_name_or_value props2 →
     POST env {| req_body := Some (JObject props1) |} params db
     = POST env {| req_body := Some (JObject props2) |} params db)
  ∧ (∀ req,
       tblSize (snd (POST env req params db)) = tblSize db
       ∨ ∃ row, tblSize (snd (POST env req params db)) = tblSize db ++ [row]
                ∧ Size.storeId row = storeId params).
Proof.
  split.
  - intros props1 props2 Hsame.
    rewrite (POST_run env {| req_body := Some (JObject props1) |} params db
               (JObject props1) eq_refl) by (split; discriminate).
    rewrite (POST_run env {| req_body := Some (JObject props2) |} params db
               (JObject props2) eq_refl) by (split; discriminate).
    rewrite <- (get_prop_name_filter props1), <- (get_prop_value_filter props1).
    rewrite <- (get_prop_name_filter props2), <- (get_prop_value_filter props2).
    by rewrite Hsame.
  - intros req. destruct (POST_db_cases env req params db)
      as [->|(n & v & u & -> & _)]; [by left|].
    right. by eexists.
Qed.

(** A body that also carries [storeId], [id], [createdAt] and [updatedAt]
    is treated as the body without them. *)
Lemma POST_reads_name_and_value_only_witness :
  POST (Sample.env_of (Some Sample.u1))
       (Sample.post [("storeId"%string, JString (js "store2"));
                     ("name"%string, JString (js "Pequeno"));
                     ("id"%string, JString (js "chosen-id"));
                     ("value"%string, JString (js "S"));
                     ("createdAt"%string, JNumber 0);
                     ("updatedAt"%string, JNumber 0)])
       Sample.at_store1 Sample.db0
  = POST (Sample.env_of (Some Sample.u1)) Sample.pequeno Sample.at_store1
         Sample.db0.
Proof.
  apply (proj1 (POST_reads_name_and_value_only
                  (Sample.env_of (Some Sample.u1)) Sample.at_store1 Sample.db0)).
  reflexivity.
Defined.

(* ===================================================================== *)
(** ** The rule set of the size form *)
(* ===================================================================== *)

Lemma trimStart_length s : (List.length (trimStart s) ≤ List.length s)%nat.
Proof.
  induction s as [|c s IH]; simpl; [done|].
  destruct (is_white_space c); simpl; lia.
Qed.

Lemma trimStart_fixed s :
  trimStart s = s ↔ ∀ c rest, s = c :: rest → is_white_space c = false.
Proof.
  destruct s as [|c s]; simpl; [done|].
  destruct (is_white_space c) eqn:Hc; split.
  - intros Heq. apply (f_equal List.length) in Heq. simpl in Heq.
    pose proof (trimStart_length s). lia.
  - intros H. specialize (H c s eq_refl). congruence.
  - by intros _ ? ? [= <- <-].
  - done.
Qed.

Lemma trimStart_same_length s :
  List.length (trimStart s) = List.length s → trimStart s = s.
Proof.
  destruct s as [|c s]; simpl; [done|].
  destruct (is_white_space c); [|done].
  intros Hlen. pose proof (trimStart_length s). lia.
Qed.

Lemma trimEnd_length s : (List.length (trimEnd s) ≤ List.length s)%nat.
Proof.
  unfold trimEnd. rewrite length_rev, <- (length_rev s). apply trimStart_length.
Qed.

Lemma trimEnd_fixed s :
  trimEnd s = s ↔ ∀ front c, s = front ++ [c] → is_white_space c = false.
Proof.
  unfold trimEnd. split.
  - intros Heq front c ->.
    assert (trimStart (rev (front ++ [c])) = rev (front ++ [c])) as Hfix.
    { rewrite <- Heq at 2. by rewrite rev_involutive. }
    rewrite rev_app_distr in Hfix.
    by apply (proj1 (trimStart_fixed _) Hfix c (rev front)).
  - intros H.
    assert (trimStart (rev s) = rev s) as ->; [|apply rev_involutive].
    apply trimStart_fixed. intros c rest Hrev. apply (H (rev rest) c).
    rewrite <- (rev_involutive s), Hrev. done.
Qed.

Lemma trim_fixed s : trim s = s ↔ no_outer_blanks s.
Proof.
  unfold no_outer_blanks. rewrite <- trimStart_fixed, <- trimEnd_fixed.
  unfold trim. split.
  - intros Heq.
    assert (trimStart s = s) as Hs.
    { apply trimStart_same_length.
      pose proof (trimStart_length s). pose proof (trimEnd_length (trimStart s)).
      rewrite Heq in *. lia. }
    split; [done|]. by rewrite Hs in Heq.
  - by intros [-> ->].
Qed.

Lemma regex_test_spec s :
  regex_test s = true ↔ s ≠ [] ∧ ∀ c, c ∈ s → allowed_char c = true.
Proof.
  destruct s as [|c s]; [by split; [|intros []]|].
  unfold regex_test. rewrite forallb_forall. split.
  - intros H. split; [done|]. intros x Hx. apply H. by apply list_elem_of_In.
  - intros [_ H] x Hx. apply H. by apply list_elem_of_In.
Qed.

(** The zod rule has no issue exactly on the well-formed strings. *)
Lemma string_rule_spec lo hi s :
  (1 ≤ lo)%nat → string_rule lo hi s = [] ↔ well_formed lo hi s.
Proof.
  intros Hlo. unfold string_rule, well_formed.
  rewrite <- trim_fixed.
  destruct (Nat.ltb_spec (List.length s) lo) as [Hsmall|Hmin].
  { split; [done|]. intros [? _]. lia. }
  destruct (Nat.ltb_spec hi (List.length s)) as [Hbig|Hmax].
  { split; [done|]. intros [? _]. lia. }
  destruct (regex_test s) eqn:Hre.
  - apply regex_test_spec in Hre as [_ Hall]. simpl.
    case_bool_decide as Htrim.
    + split; [intros _; split; [lia|done] | done].
    + split; [done|]. by intros (_ & _ & ?).
  - split; [done|]. intros (_ & Hall & _).
    assert (regex_test s = true); [|congruence].
    apply regex_test_spec. split; [|done]. intros ->. simpl in Hmin. lia.
Qed.

Lemma string_rule_issue lo hi s :
  (1 ≤ lo)%nat → ¬ well_formed lo hi s → ∃ issue, issue ∈ string_rule lo hi s.
Proof.
  intros Hlo Hbad. destruct (string_rule lo hi s) as [|issue rest] eqn:Hr.
  - exfalso. apply Hbad. by apply string_rule_spec.
  - exists issue. apply list_elem_of_here.
Qed.

Lemma formSchema_spec data :
  formSchema data = []
  ↔ well_formed 3 30 (name data) ∧ well_formed 1 5 (value data).
Proof.
  unfold formSchema.
  rewrite <- (string_rule_spec 3 30) by lia.
  rewrite <- (string_rule_spec 1 5) by lia.
  split.
  - intros [Hn Hv]%app_eq_nil.
    split; [by destruct (string_rule 3 30 _)|by destruct (string_rule 1 5 _)].
  - by intros [-> ->].
Qed.

(** C8, counterexample.  The name "ab" has two characters, which the form's
    schema refuses; sent to the endpoint by the owner of the store, it is
    persisted and the response is 200. *)
Lemma POST_persists_ill_formed_name :
  formSchema {| name := js "ab"; value := js "S" |}
  = [(field_name, too_small 3)]
  ∧ POST (Sample.env_of (Some Sample.u1))
         (body_of {| name := js "ab"; value := js "S" |})
         Sample.at_store1 Sample.db0
    = (Normal (NextResponse_json
                 (JsonSize (Size.mk (js "size-0001") (js "store1") (js "ab")
                                    (js "S") 1700 1700))),
       with_size Sample.db0
                 (Size.mk (js "size-0001") (js "store1") (js "ab") (js "S")
                          1700 1700)).
Proof. split; reflexivity. Qed.

Lemma char_length_le s : (char_length s ≤ List.length s)%nat.
Proof.
  assert (∀ n s, (List.length s ≤ n)%nat →
                 (char_length s ≤ List.length s)%nat) as H.
  { intros n. induction n as [|n IH]; intros [|hi [|lo rest]] Hlen;
      simpl in *; try lia.
    destruct (_ && _)%bool.
    - specialize (IH rest). lia.
    - specialize (IH (lo :: rest)). simpl in IH. lia. }
  by apply (H (List.length s)).
Qed.

Lemma well_formed_fits lo hi s :
  (hi ≤ 191)%nat → well_formed lo hi s → fits_String s = true.
Proof.
  intros Hhi [Hlen _]. unfold fits_String. apply Nat.leb_le.
  pose proof (char_length_le s). lia.
Qed.

Lemma first_per_field_sound issues seen e :
  e ∈ first_per_field issues seen → e ∈ issues ∧ fst e ∉ seen.
Proof.
  revert seen. induction issues as [|[g j] rest IH]; intros seen; simpl.
  { by intros ?%elem_of_nil. }
  case_bool_decide as Hseen.
  - intros [Hin Hnot]%IH. split; [by apply list_elem_of_further|done].
  - intros [->|[Hin Hnot]%IH]%elem_of_cons.
    + split; [apply list_elem_of_here|done].
    + split; [by apply list_elem_of_further|].
      intros Hs. apply Hnot. by apply list_elem_of_further.
Qed.

Lemma first_per_field_complete issues seen f i :
  (f, i) ∈ issues → f ∉ seen → ∃ i', (f, i') ∈ first_per_field issues seen.
Proof.
  revert seen. induction issues as [|[g j] rest IH]; intros seen Hin Hnot.
  { by apply elem_of_nil in Hin. }
  simpl. case_bool_decide as Hseen.
  - apply elem_of_cons in Hin as [[= -> ->]|Hin]; [done|]. by apply IH.
  - destruct (decide (f = g)) as [->|Hfg].
    + exists j. apply list_elem_of_here.
    + apply elem_of_cons in Hin as [[= -> ->]|Hin]; [done|].
      destruct (IH (g :: seen) Hin) as [i' Hi'].
      { by intros [->|?]%elem_of_cons. }
      exists i'. by apply list_elem_of_further.
Qed.

Lemma first_per_field_one_each issues seen :
  NoDup (List.map fst (first_per_field issues seen)).
Proof.
  revert seen. induction issues as [|[g j] rest IH]; intros seen; simpl.
  { apply NoDup_nil_2. }
  case_bool_decide as Hseen; [apply IH|]. simpl. apply NoDup_cons_2; [|apply IH].
  intros Hin. apply list_elem_of_In, in_map_iff in Hin as (e & Hfst & He).
  apply list_elem_of_In, first_per_field_sound in He as [_ Hnot].
  apply Hnot. rewrite Hfst. apply list_elem_of_here.
Qed.

(** C8, amended.  The rule set (name: 3 to 30 characters of the allowed
    alphabet without leading or trailing white space; value: 1 to 5 such
    characters) is the schema of the dashboard's form, not of the endpoint.
    When a value breaks a rule, the form shows one issue, the first, at
    each field that breaks one, and sends nothing.  The Create handler
    tests [name] and [value] for presence only: for the owner of the store
    it persists any non-empty strings of at most 191 characters,
    well-formed or not, and answers 200 (the generated identifier being
    unused). *)
Theorem rule_set_is_checked_by_the_form_only env params db data :
  let shown := first_per_field (formSchema data) [] in
  (formSchema data = []
   ↔ well_formed 3 30 (name data) ∧ well_formed 1 5 (value data))
  ∧ (formSchema data ≠ [] →
     handleSubmit env params data db = (Normal (FieldErrors shown), db)
     ∧ shown ≠ [])
  ∧ (¬ well_formed 3 30 (name data) → ∃ issue, (field_name, issue) ∈ shown)
  ∧ (¬ well_formed 1 5 (value data) → ∃ issue, (field_value, issue) ∈ shown)
  ∧ NoDup (List.map fst shown)
  ∧ (∀ e, e ∈ shown → e ∈ formSchema data)
  ∧ (∀ u, userId (auth env) = Some u → u ≠ [] →
          name data ≠ [] → value data ≠ [] →
          fits_String (name data) = true → fits_String (value data) = true →
          storeId params ≠ [] →
          owns db u (storeId params) → fresh_id env db →
          let row := new_size env (storeId params) (name data) (value data) in
          POST env (body_of data) params db
          = (Normal (NextResponse_json (JsonSize row)), with_size db row)).
Proof.
  intros shown. subst shown.
  split; [apply formSchema_spec|]. split; [|split; [|split; [|split; [|split]]]].
  - intros Hbad. unfold handleSubmit.
    destruct (formSchema data) as [|[f i] rest]; [done|]. split; [done|].
    destruct (first_per_field_complete ((f, i) :: rest) [] f i) as [i' Hi'];
      [apply list_elem_of_here | apply not_elem_of_nil |].
    intros Heq. rewrite Heq in Hi'. by apply elem_of_nil in Hi'.
  - intros Hbad. destruct (string_rule_issue 3 30 (name data)) as [i Hi];
      [lia|done|].
    apply (first_per_field_complete _ _ _ i); [|apply not_elem_of_nil].
    unfold formSchema. apply elem_of_app. left.
    apply list_elem_of_In, in_map, list_elem_of_In, Hi.
  - intros Hbad. destruct (string_rule_issue 1 5 (value data)) as [i Hi];
      [lia|done|].
    apply (first_per_field_complete _ _ _ i); [|apply not_elem_of_nil].
    unfold formSchema. apply elem_of_app. right.
    apply list_elem_of_In, in_map, list_elem_of_In, Hi.
  - apply first_per_field_one_each.
  - intros e He. by apply first_per_field_sound in He as [He _].
  - intros u Hu Hne Hname Hvalue Hfn Hfv Hsid Hown Hfresh row.
    rewrite (POST_run env (body_of data) params db _ eq_refl)
      by (split; discriminate).
    cbv zeta. rewrite Hu. apply truthy_str_Some in Hne as ->.
    change (get_prop _ (js "name")) with (JString (name data)).
    change (get_prop _ (js "value")) with (JString (value data)).
    apply truthy_JString in Hname as ->. apply truthy_JString in Hvalue as ->.
    apply truthy_JString in Hsid as ->. cbn [negb].
    apply existsb_store_where in Hown.
    rewrite existsb_find_store in Hown. apply bool_decide_eq_true in Hown.
    destruct Hown as [s ->]. rewrite Hfn, Hfv. cbn [andb negb].
    apply existsb_id_false in Hfresh. by rewrite Hfresh.
Qed.

(** The name "ab": refused by the form, persisted by the endpoint. *)
Lemma rule_set_is_checked_by_the_form_only_witness :
  handleSubmit (Sample.env_of (Some Sample.u1)) Sample.at_store1
               {| name := js "ab"; value := js "S" |} Sample.db0
  = (Normal (FieldErrors [(field_name, too_small 3)]), Sample.db0)
  ∧ snd (POST (Sample.env_of (Some Sample.u1))
              (body_of {| name := js "ab"; value := js "S" |})
              Sample.at_store1 Sample.db0)
    = with_size Sample.db0
        (new_size (Sample.env_of (Some Sample.u1)) (js "store1") (js "ab")
                  (js "S")).
Proof.
  destruct (rule_set_is_checked_by_the_form_only
              (Sample.env_of (Some Sample.u1)) Sample.at_store1 Sample.db0
              {| name := js "ab"; value := js "S" |})
    as (_ & Hform & _ & _ & _ & _ & Hpost).
  split.
  - apply Hform. discriminate.
  - rewrite (Hpost Sample.u1);
      [reflexivity | reflexivity | discriminate | discriminate | discriminate
      | reflexivity | reflexivity | discriminate | apply sample_u1_owns
      | apply sample_fresh].
Defined.

(* ===================================================================== *)
(** ** Deleting a billboard *)
(* ===================================================================== *)

Lemma find_exists {A} (f : A → bool) (l : list A) x :
  x ∈ l → f x = true → ∃ y, List.find f l = Some y ∧ y ∈ l ∧ f y = true.
Proof.
  intros Hin Hx. destruct (List.find f l) as [y|] eqn:Hf.
  - apply find_some in Hf as [Hy Hfy]. exists y.
    by rewrite list_elem_of_In.
  - apply list_elem_of_In in Hin. by rewrite (find_none _ _ Hf x Hin) in Hx.
Qed.

Lemma authorize_owner db u sid :
  u ≠ [] → sid ≠ [] → owns db u sid →
  ∃ s, authorize (Some u) sid db = (Normal (Ok s), db).
Proof.
  intros Hu Hsid Hown. unfold authorize.
  apply truthy_str_Some in Hu as ->. cbn [negb].
  rewrite bool_decide_eq_false_2 by done.
  unfold prismadb.store.findFirst, bind, get_db, ret.
  fold (store_where sid (Some u)).
  apply existsb_store_where in Hown. rewrite existsb_find_store in Hown.
  apply bool_decide_eq_true in Hown as [s ->]. by exists s.
Qed.

Lemma no_category_left billboardId db :
  existsb (λ c, bool_decide (Category.billboardId c = billboardId))
          (tblCategory (without_categories_of billboardId db)) = false.
Proof.
  simpl. induction (tblCategory db) as [|c l IH]; [done|]. simpl.
  destruct (bool_decide (Category.billboardId c = billboardId)) eqn:Hc; simpl;
    [done|]. by rewrite Hc.
Qed.

(** C2.  The owner of a store deletes one of its billboards.  While a
    Category row references the billboard the deletion fails with Conflict
    and the database is unchanged (the form shows its message about the
    categories).  Once the referencing categories are removed, the same
    deletion succeeds: it returns the billboard, its row is gone, and every
    other billboard is still there. *)
Theorem billboard_delete_conflict_then_success u sid b db :
  u ≠ [] → sid ≠ [] → owns db u sid →
  b ∈ tblBillboard db → Billboard.storeId b = sid →
  (∃ c, c ∈ tblCategory db ∧ Category.billboardId c = Billboard.id b) →
  Delete_billboard (Some u) sid (Billboard.id b) db
  = (Normal (Fails Conflict), db)
  ∧ onDelete (Some u) sid (Billboard.id b) db
    = (Normal (toast_error
                 "Certifique-se que remove todas as categorias que usam este painel, antes de o apagar."),
       db)
  ∧ (let cleared := without_categories_of (Billboard.id b) db in
     ∃ deleted db',
       Delete_billboard (Some u) sid (Billboard.id b) cleared
       = (Normal (Ok deleted), db')
       ∧ onDelete (Some u) sid (Billboard.id b) cleared
         = (Normal (toast_success "Painel apagado com sucesso."), db')
       ∧ Billboard.id deleted = Billboard.id b
       ∧ Billboard.storeId deleted = sid
       ∧ (∀ x, x ∈ tblBillboard db' ↔
               x ∈ tblBillboard db
               ∧ ¬ (Billboard.id x = Billboard.id b ∧ Billboard.storeId x = sid))
       ∧ tblCategory db' = tblCategory cleared
       ∧ tblStore db' = tblStore db ∧ tblSize db' = tblSize db).
Proof.
  intros Hu Hsid Hown Hb Hbs (c & Hc & Href).
  set (is_target := λ x : Billboard.t,
         bool_decide (Billboard.id x = Billboard.id b)
         && bool_decide (Billboard.storeId x = sid)).
  assert (is_target b = true) as Htarget.
  { unfold is_target. by rewrite !bool_decide_eq_true_2. }
  destruct (find_exists is_target _ b Hb Htarget) as (d & Hfind & Hd & Hdt).
  assert (Billboard.id d = Billboard.id b ∧ Billboard.storeId d = sid) as [Hid Hst].
  { apply andb_prop in Hdt as [H1 H2]. by apply bool_decide_eq_true in H1, H2. }
  assert (existsb (λ c, bool_decide (Category.billboardId c = Billboard.id b))
                  (tblCategory db) = true) as Hused.
  { apply existsb_exists. exists c. split; [by apply list_elem_of_In|].
    by apply bool_decide_eq_true. }
  assert (Delete_billboard (Some u) sid (Billboard.id b) db
          = (Normal (Fails Conflict), db)) as Hconflict.
  { destruct (authorize_owner db u sid Hu Hsid Hown) as [s Hauth].
    unfold Delete_billboard, bind. rewrite Hauth. unfold get_db, ret.
    fold is_target. by rewrite Hfind, Hused. }
  split; [done|]. split.
  { unfold onDelete, bind. by rewrite Hconflict. }
  intros cleared.
  assert (owns cleared u sid) as Hown' by done.
  destruct (authorize_owner cleared u sid Hu Hsid Hown') as [s Hauth].
  exists d.
  exists (mkDb (tblStore db)
               (List.filter (λ x, negb (is_target x)) (tblBillboard db))
               (tblCategory cleared) (tblSize db)).
  assert (Delete_billboard (Some u) sid (Billboard.id b) cleared
          = (Normal (Ok d),
             mkDb (tblStore db)
                  (List.filter (λ x, negb (is_target x)) (tblBillboard db))
                  (tblCategory cleared) (tblSize db))) as Hdeleted.
  { unfold Delete_billboard, bind. rewrite Hauth. unfold get_db, put_db, ret.
    fold is_target. change (tblBillboard cleared) with (tblBillboard db).
    rewrite Hfind. subst cleared. by rewrite no_category_left. }
  split; [done|]. split.
  { unfold onDelete, bind. by rewrite Hdeleted. }
  repeat (split; [done|]). split; [|done].
  intros x. simpl. rewrite list_elem_of_In, filter_In, <- list_elem_of_In.
  unfold is_target. rewrite negb_true_iff, andb_false_iff.
  rewrite !bool_decide_eq_false. split.
  - intros [Hx Hnot]. split; [done|]. intros []. by destruct Hnot.
  - intros [Hx Hnot]. split; [done|].
    destruct (decide (Billboard.id x = Billboard.id b)); [|by left].
    right. intros ?. by apply Hnot.
Qed.

(** A billboard used by one category: Conflict, then success once the
    category is gone. *)
Lemma billboard_delete_conflict_then_success_witness :
  Delete_billboard (Some Sample.u1) (js "store1") (js "bb-1")
                   Sample.db_billboard
  = (Normal (Fails Conflict), Sample.db_billboard)
  ∧ ∃ db',
      Delete_billboard (Some Sample.u1) (js "store1") (js "bb-1")
                       (without_categories_of (js "bb-1") Sample.db_billboard)
      = (Normal (Ok Sample.billboard1), db')
      ∧ tblBillboard db' = [].
Proof.
  destruct (billboard_delete_conflict_then_success
              Sample.u1 (js "store1") Sample.billboard1 Sample.db_billboard)
    as (Hconflict & _ & deleted & db' & Hdeleted & _);
    [discriminate | discriminate | | apply list_elem_of_here | reflexivity | |].
  - exists Sample.store1. split; [apply list_elem_of_here|]. split; reflexivity.
  - exists Sample.category1. split; [apply list_elem_of_here|reflexivity].
  - split; [exact Hconflict|]. exists db'.
    vm_compute in Hdeleted. injection Hdeleted as <- <-.
    split; reflexivity.
Defined.


(* ===================================================================== *)
(** ** More on Create: what a caller can and cannot observe *)
(* ===================================================================== *)

(** X2.  A caller who is not signed in gets one and the same response for
    every path and every database, and changes nothing: 401 when the body
    is JSON other than null, 500 otherwise.  Such a caller never gets 200,
    400 or 403, so learns nothing of stores, sizes or the presence rules. *)
Theorem POST_unauthenticated_is_blind env req :
  truthy_str (userId (auth env)) = false →
  ∃ resp,
    (∀ params db, POST env req params db = (Normal resp, db))
    ∧ (resp = unauthenticated_401 ∨ resp = internal_error_500)
    ∧ (resp = unauthenticated_401 ↔ ∃ b, req_body req = Some b ∧ readable b).
Proof.
  intros Hanon. destruct (req_body req) as [b|] eqn:Hb.
  - destruct (readable_dec b) as [Hread|Hnull].
    + exists unauthenticated_401. split; [|split; [by left|]].
      * intros params db. rewrite (POST_run env req params db b Hb Hread).
        cbv zeta. by rewrite Hanon.
      * split; [|done]. intros _. by exists b.
    + exists internal_error_500. split; [|split; [by right|]].
      * intros params db. by apply (POST_null _ _ _ _ b).
      * split; [done|]. intros (b' & [= <-] & Hread). done.
  - exists internal_error_500. split; [|split; [by right|]].
    + intros params db. by apply POST_not_json.
    + split; [done|]. by intros (b' & [=] & _).
Qed.

(** Nobody is signed in: the example body, then a body that is not JSON. *)
Lemma POST_unauthenticated_is_blind_witness :
  POST (Sample.env_of None) Sample.pequeno Sample.at_store1 Sample.db0
  = (Normal unauthenticated_401, Sample.db0)
  ∧ POST (Sample.env_of None) Sample.pequeno Sample2.at_store2 Sample.db_empty
    = (Normal unauthenticated_401, Sample.db_empty).
Proof.
  destruct (POST_unauthenticated_is_blind (Sample.env_of None) Sample.pequeno
              eq_refl) as (resp & Hall & _ & Hiff).
  assert (resp = unauthenticated_401) as ->.
  { apply Hiff. eexists. split; [reflexivity|]. split; discriminate. }
  split; apply Hall.
Defined.

(** X3.  The presence checks come before any access to the database: a
    request that is answered 400 or 401 is answered the same, with nothing
    changed, whatever the database holds. *)
Theorem POST_rejection_ignores_database env req params db resp :
  fst (POST env req params db) = Normal resp →
  status resp = 400 ∨ status resp = 401 →
  ∀ db2, POST env req params db2 = (Normal resp, db2).
Proof.
  intros HP Hst db2. destruct (req_body req) as [b|] eqn:Hb.
  2: { rewrite POST_not_json in HP by done. injection HP as <-.
       destruct Hst; discriminate. }
  destruct (readable_dec b) as [Hread|Hnull].
  2: { rewrite (POST_null _ _ _ _ b) in HP by done. injection HP as <-.
       destruct Hst; discriminate. }
  revert HP. rewrite !(POST_run env req params _ b Hb Hread). cbv zeta.
  destruct (negb (truthy_str _)); [by intros [= <-]|].
  destruct (negb (truthy (get_prop b (js "name")))); [by intros [= <-]|].
  destruct (negb (truthy (get_prop b (js "value")))); [by intros [= <-]|].
  destruct (negb (truthy (JString _))); [by intros [= <-]|].
  intros HP. exfalso.
  repeat (match type of HP with
          | context [if ?c then _ else _] => destruct c
          | context [match ?x with _ => _ end] => destruct x
          end);
    simpl in HP; injection HP as <-; destruct Hst; discriminate.
Qed.

(** A body without [value]: 400 against the sample database, so 400 against
    the empty one. *)
Lemma POST_rejection_ignores_database_witness :
  POST (Sample.env_of (Some Sample.u1))
       (Sample.post [("name"%string, JString (js "Pequeno"))])
       Sample.at_store1 Sample.db_empty
  = (Normal value_required_400, Sample.db_empty).
Proof.
  apply (POST_rejection_ignores_database
           (Sample.env_of (Some Sample.u1))
           (Sample.post [("name"%string, JString (js "Pequeno"))])
           Sample.at_store1 Sample.db0 value_required_400);
    [reflexivity | left; reflexivity].
Defined.



(* ===================================================================== *)
(** ** Create and List together *)
(* ===================================================================== *)

Lemma GET_run env req params db :
  storeId params ≠ [] →
  GET env req params db
  = (Normal (NextResponse_json
               (JsonSizes (List.filter
                             (λ r, bool_decide (Size.storeId r = storeId params))
                             (tblSize db)))), db).
Proof.
  intros Hsid. run_handler. apply truthy_JString in Hsid as ->. reflexivity.
Qed.

Lemma GET_db env req params db : snd (GET env req params db) = db.
Proof. run_handler. by destruct (negb _). Qed.

Lemma POST_created_storeId env req params db :
  snd (POST env req params db) ≠ db → storeId params ≠ [].
Proof.
  intros Hchg. destruct (req_body req) as [b|] eqn:Hb.
  2: { by rewrite POST_not_json in Hchg. }
  destruct (readable_dec b) as [Hread|Hnull].
  2: { by rewrite (POST_null _ _ _ _ b) in Hchg. }
  revert Hchg. rewrite (POST_run env req params db b Hb Hread). cbv zeta.
  destruct (negb (truthy_str _)); [done|].
  destruct (negb (truthy (get_prop b (js "name")))); [done|].
  destruct (negb (truthy (get_prop b (js "value")))); [done|].
  destruct (truthy (JString _)) eqn:Hsid; [|done].
  intros _. by apply truthy_JString.
Qed.

(** What a 200 of Create says about the request and the two databases. *)
Lemma POST_200 env req params db row db' :
  POST env req params db = (Normal (NextResponse_json (JsonSize row)), db') →
  ∃ b n v u,
    req_body req = Some b ∧ readable b
    ∧ get_prop b (js "name") = JString n ∧ n ≠ []
    ∧ get_prop b (js "value") = JString v ∧ v ≠ []
    ∧ userId (auth env) = Some u ∧ u ≠ []
    ∧ storeId params ≠ [] ∧ owns db u (storeId params)
    ∧ fresh_id env db
    ∧ row = new_size env (storeId params) n v
    ∧ db' = with_size db row.
Proof.
  intros HP. pose proof (POST_status_200 _ _ _ _ _ _ HP eq_refl) as Hchg.
  assert (snd (POST env req params db) ≠ db) as Hchg' by by rewrite HP.
  pose proof (POST_created_storeId _ _ _ _ Hchg') as Hsid.
  destruct (POST_created _ _ _ _ Hchg')
    as (b & n & v & u & s & Hb & Hn & Hne & Hv & Hve & Hu & Hue & Hin & Hid
        & Hown & Hfresh & HP').
  rewrite HP in HP'. injection HP' as -> ->.
  exists b, n, v, u. split; [done|]. split.
  { apply (truthy_readable b (js "name")). rewrite Hn. by apply truthy_JString. }
  repeat (split; [done|]). split; [by exists s|done].
Qed.

Lemma POST_200_fits env req params db row db' :
  POST env req params db = (Normal (NextResponse_json (JsonSize row)), db') →
  fits_String (Size.name row) = true ∧ fits_String (Size.value row) = true.
Proof.
  intros HP.
  destruct (POST_200 _ _ _ _ _ _ HP)
    as (b & n & v & u & Hb & Hread & Hn & Hne & Hv & Hve & Hu & Hue & Hsid
        & Hown & Hfresh & -> & ->).
  revert HP. rewrite (POST_run env req params db b Hb Hread). cbv zeta.
  rewrite Hu, Hn, Hv. apply truthy_str_Some in Hue as ->.
  apply truthy_JString in Hne as ->. apply truthy_JString in Hve as ->.
  apply truthy_JString in Hsid as ->. cbn [negb].
  destruct (List.find _ _); [|done].
  destruct (negb (fits_String n && fits_String v)) eqn:Hfits; [done|].
  intros _. by apply negb_false_iff, andb_prop in Hfits.
Qed.

(** X5.  Create, then List.  After a Create that answered 200 with a row,
    the list of the same store holds that row and the rows it held before,
    and no others; the row was not in the list before; and the list of
    every other store is what it was. *)
Theorem GET_after_POST env req params db row db' :
  POST env req params db = (Normal (NextResponse_json (JsonSize row)), db') →
  ∀ env' req',
    (∃ rows rows',
       GET env' req' params db
       = (Normal (NextResponse_json (JsonSizes rows)), db)
       ∧ GET env' req' params db'
         = (Normal (NextResponse_json (JsonSizes rows')), db')
       ∧ (row ∉ rows)
       ∧ (∀ r, r ∈ rows' ↔ r ∈ rows ∨ r = row))
    ∧ (∀ params', storeId params' ≠ storeId params →
         fst (GET env' req' params' db') = fst (GET env' req' params' db)).
Proof.
  intros HP env' req'.
  destruct (POST_200 _ _ _ _ _ _ HP)
    as (b & n & v & u & _ & _ & _ & _ & _ & _ & _ & _ & Hsid & _ & Hfresh
        & -> & ->).
  split.
  - do 2 eexists. split; [by apply GET_run|]. split; [by apply GET_run|].
    split.
    + rewrite list_elem_of_In, filter_In, <- list_elem_of_In.
      intros [Hin _]. by apply (Hfresh _ Hin).
    + intros r. simpl. rewrite List.filter_app. simpl.
      rewrite bool_decide_eq_true_2 by done.
      rewrite elem_of_app, list_elem_of_singleton. done.
  - intros params' Hother.
    destruct (decide (storeId params' = [])) as [Hempty|Hsid'].
    + run_handler. simpl. by rewrite Hempty.
    + rewrite !GET_run by done. simpl. rewrite List.filter_app. simpl.
      rewrite bool_decide_eq_false_2 by done. by rewrite app_nil_r.
Qed.

(** The owner creates "Pequeno" in [store1]; anybody then lists [store1]. *)
Lemma GET_after_POST_witness :
  ∃ rows',
    GET (Sample.env_of None) {| req_body := None |} Sample.at_store1
        (with_size Sample.db0 Sample.size1)
    = (Normal (NextResponse_json (JsonSizes rows')),
       with_size Sample.db0 Sample.size1)
    ∧ Sample.size1 ∈ rows'.
Proof.
  destruct (GET_after_POST
              (Sample.env_of (Some Sample.u1)) Sample.pequeno Sample.at_store1
              Sample.db0 Sample.size1 (with_size Sample.db0 Sample.size1)
              eq_refl (Sample.env_of None) {| req_body := None |})
    as [(rows & rows' & _ & Hget & _ & Hrows) _].
  exists rows'. split; [exact Hget|]. apply Hrows. by right.
Defined.

(** X6.  Create keeps no memory of names: the same body sent again, under a
    new generated identifier, is a second row with the same [name], [value]
    and [storeId].  Under the identifier of the first row it is refused
    with 500 and nothing changes. *)
Theorem POST_does_not_deduplicate env env2 req params db row db' :
  POST env req params db = (Normal (NextResponse_json (JsonSize row)), db') →
  auth env2 = auth env → uuid env2 ≠ uuid env → fresh_id env2 db →
  (∃ row2,
     POST env2 req params db'
     = (Normal (NextResponse_json (JsonSize row2)), with_size db' row2)
     ∧ Size.name row2 = Size.name row ∧ Size.value row2 = Size.value row
     ∧ Size.storeId row2 = Size.storeId row ∧ Size.id row2 ≠ Size.id row)
  ∧ POST env req params db' = (Normal internal_error_500, db').
Proof.
  intros HP Hauth Huuid Hfresh2.
  destruct (POST_200_fits _ _ _ _ _ _ HP) as [Hfn Hfv].
  destruct (POST_200 _ _ _ _ _ _ HP)
    as (b & n & v & u & Hb & Hread & Hn & Hne & Hv & Hve & Hu & Hue & Hsid
        & Hown & Hfresh & -> & ->).
  assert (List.find (store_where (storeId params) (Some u))
                    (tblStore (with_size db (new_size env (storeId params) n v)))
          = List.find (store_where (storeId params) (Some u)) (tblStore db))
    as Hstores by done.
  apply existsb_store_where in Hown. rewrite existsb_find_store in Hown.
  apply bool_decide_eq_true in Hown as [s Hfind].
  split.
  - exists (new_size env2 (storeId params) n v).
    rewrite (POST_run env2 req params _ b Hb Hread). cbv zeta.
    rewrite Hauth, Hu, Hn, Hv, Hstores, Hfind.
    apply truthy_str_Some in Hue as ->.
    apply truthy_JString in Hne as ->. apply truthy_JString in Hve as ->.
    apply truthy_JString in Hsid as ->. cbn [negb].
    assert (fresh_id env2 (with_size db (new_size env (storeId params) n v)))
      as Hfresh'.
    { intros r [Hin|Hin]%elem_of_app; [by apply Hfresh2|].
      apply list_elem_of_singleton in Hin as ->. simpl. congruence. }
    simpl in Hfn, Hfv. rewrite Hfn, Hfv. cbn [andb negb].
    apply existsb_id_false in Hfresh' as ->. simpl. repeat split; congruence.
  - rewrite (POST_run env req params _ b Hb Hread). cbv zeta.
    rewrite Hu, Hn, Hv, Hstores, Hfind.
    apply truthy_str_Some in Hue as ->.
    apply truthy_JString in Hne as ->. apply truthy_JString in Hve as ->.
    apply truthy_JString in Hsid as ->. cbn [negb].
    simpl in Hfn, Hfv. rewrite Hfn, Hfv. cbn [andb negb].
    assert (existsb (λ r, bool_decide (Size.id r = uuid env))
                    (tblSize (with_size db (new_size env (storeId params) n v)))
            = true) as ->; [|done].
    apply existsb_exists. exists (new_size env (storeId params) n v).
    split; [apply in_or_app; right; by left|]. by apply bool_decide_eq_true.
Qed.

(** "Pequeno" twice in [store1]: two rows. *)
Lemma POST_does_not_deduplicate_witness :
  ∃ row2,
    tblSize (snd (POST (Sample2.env2_of (Some Sample.u1)) Sample.pequeno
                       Sample.at_store1 (with_size Sample.db0 Sample.size1)))
    = [Sample.size1; row2]
    ∧ Size.name row2 = Size.name Sample.size1.
Proof.
  destruct (POST_does_not_deduplicate
              (Sample.env_of (Some Sample.u1))
              (Sample2.env2_of (Some Sample.u1)) Sample.pequeno
              Sample.at_store1 Sample.db0 Sample.size1
              (with_size Sample.db0 Sample.size1) eq_refl eq_refl)
    as [(row2 & HP & Hname & _) _]; [discriminate | |].
  - intros r Hin. vm_compute in Hin. inversion Hin.
  - exists row2. rewrite HP. split; [reflexivity | exact Hname].
Defined.

(* ===================================================================== *)
(** ** Any number of requests *)
(* ===================================================================== *)

(** One request: the three other tables stay, and the Size table stays or
    gets one row, by a [POST], with an unused [id] and the [id] of a Store
    row as [storeId]. *)
Lemma serve_step call db :
  let db' := snd (serve call db) in
  tblStore db' = tblStore db
  ∧ tblBillboard db' = tblBillboard db
  ∧ tblCategory db' = tblCategory db
  ∧ (tblSize db' = tblSize db
     ∨ is_POST call = true
       ∧ ∃ row, tblSize db' = tblSize db ++ [row]
                ∧ (∀ r, r ∈ tblSize db → Size.id r ≠ Size.id row)
                ∧ ∃ s, s ∈ tblStore db ∧ Store.id s = Size.storeId row).
Proof.
  destruct call as [env req params|env req params]; simpl.
  2: { rewrite GET_db. repeat (split; [done|]). by left. }
  destruct (POST_db_cases env req params db)
    as [->|(n & v & u & Hnew & _ & _ & (s & Hin & Hid & _))].
  { repeat (split; [done|]). by left. }
  assert (snd (POST env req params db) ≠ db) as Hchg.
  { rewrite Hnew. apply with_size_neq. }
  destruct (POST_created _ _ _ _ Hchg) as (b & n' & v' & u' & s' & H).
  destruct H as (_ & _ & _ & _ & _ & _ & _ & _ & _ & _ & Hfresh & _).
  rewrite Hnew. repeat (split; [done|]). right. split; [done|].
  eexists. split; [done|]. split; [exact Hfresh|]. by exists s.
Qed.

(** X7.  Whatever requests reach the sizes endpoint, in whatever order, the
    Store, Billboard and Category tables are never written, no Size row is
    ever removed or changed, and at most one Size row is added per POST
    request (none by a GET). *)
Theorem serve_all_frame calls db :
  let db' := serve_all calls db in
  tblStore db' = tblStore db
  ∧ tblBillboard db' = tblBillboard db
  ∧ tblCategory db' = tblCategory db
  ∧ ∃ added, tblSize db' = tblSize db ++ added
             ∧ (List.length added ≤ List.length (List.filter is_POST calls))%nat.
Proof.
  revert db. induction calls as [|call calls IH]; intros db; simpl.
  { repeat (split; [done|]). exists []. by rewrite app_nil_r. }
  destruct (IH (snd (serve call db))) as (Hs & Hb & Hc & added & Hsz & Hlen).
  destruct (serve_step call db) as (Hs1 & Hb1 & Hc1 & Hstep).
  split; [congruence|]. split; [congruence|]. split; [congruence|].
  destruct Hstep as [Hsame|(Hpost & row & Hrow & _)].
  - exists added. rewrite Hsz, Hsame. split; [done|].
    destruct (is_POST call); simpl; lia.
  - exists (row :: added). rewrite Hsz, Hrow, <- app_assoc. split; [done|].
    rewrite Hpost. simpl. lia.
Qed.

(** A list, a create and a refused create against the sample database: one
    row more. *)
Lemma serve_all_frame_witness :
  tblStore (serve_all [CallGET (Sample.env_of None) Sample.pequeno Sample.at_store1;
                       CallPOST (Sample.env_of (Some Sample.u1)) Sample.pequeno
                                Sample.at_store1;
                       CallPOST (Sample.env_of (Some Sample.u2)) Sample.pequeno
                                Sample.at_store1]
                      Sample.db0)
  = [Sample.store1].
Proof.
  apply (proj1 (serve_all_frame
                  [CallGET (Sample.env_of None) Sample.pequeno Sample.at_store1;
                   CallPOST (Sample.env_of (Some Sample.u1)) Sample.pequeno
                            Sample.at_store1;
                   CallPOST (Sample.env_of (Some Sample.u2)) Sample.pequeno
                            Sample.at_store1]
                  Sample.db0)).
Defined.

(** X8.  Two invariants of the database under any sequence of requests to
    the sizes endpoint: if every Size row references a Store row, it stays
    so (though the database holds no foreign key); and if no two Size rows
    share an [id], it stays so. *)
Theorem serve_all_invariants calls db :
  (sizes_reference_stores db → sizes_reference_stores (serve_all calls db))
  ∧ (size_ids_unique db → size_ids_unique (serve_all calls db)).
Proof.
  revert db. induction calls as [|call calls IH]; intros db; simpl; [done|].
  destruct (IH (snd (serve call db))) as [IHref IHuniq].
  destruct (serve_step call db) as (Hs & _ & _ & Hstep).
  split.
  - intros Hinv. apply IHref. intros r Hr. rewrite Hs.
    destruct Hstep as [Hsame|(_ & row & Hrow & _ & s & Hin & Hid)].
    + rewrite Hsame in Hr. by apply Hinv.
    + rewrite Hrow in Hr. apply elem_of_app in Hr as [Hr|Hr]; [by apply Hinv|].
      apply list_elem_of_singleton in Hr as ->. by exists s.
  - intros Huniq. apply IHuniq. unfold size_ids_unique in *.
    destruct Hstep as [Hsame|(_ & row & Hrow & Hfresh & _)].
    + by rewrite Hsame.
    + rewrite Hrow, map_app. simpl. apply NoDup_app. split; [done|]. split.
      * intros x Hx Hx'. apply list_elem_of_singleton in Hx' as ->.
        apply list_elem_of_In, in_map_iff in Hx as (r & Hid & Hr).
        apply list_elem_of_In in Hr. by apply (Hfresh r).
      * apply NoDup_singleton.
Qed.

(** The sample database has no Size row, so both invariants hold of it, and
    of what two creates make of it. *)
Lemma serve_all_invariants_witness :
  sizes_reference_stores
    (serve_all [CallPOST (Sample.env_of (Some Sample.u1)) Sample.pequeno
                         Sample.at_store1;
                CallPOST (Sample2.env2_of (Some Sample.u1)) Sample.pequeno
                         Sample.at_store1]
               Sample.db0)
  ∧ size_ids_unique
      (serve_all [CallPOST (Sample.env_of (Some Sample.u1)) Sample.pequeno
                           Sample.at_store1;
                  CallPOST (Sample2.env2_of (Some Sample.u1)) Sample.pequeno
                           Sample.at_store1]
                 Sample.db0).
Proof.
  destruct (serve_all_invariants
              [CallPOST (Sample.env_of (Some Sample.u1)) Sample.pequeno
                        Sample.at_store1;
               CallPOST (Sample2.env2_of (Some Sample.u1)) Sample.pequeno
                        Sample.at_store1]
              Sample.db0) as [Href Huniq].
  split.
  - apply Href. intros r Hin. vm_compute in Hin. inversion Hin.
  - apply Huniq. apply NoDup_nil_2.
Defined.

(* ===================================================================== *)
(** ** The size form and the endpoint together *)
(* ===================================================================== *)

(** What [onSubmit] makes of the values: the error toast and nothing
    written, or the success toast and the values' row written. *)
Lemma onSubmit_cases env params data db :
  onSubmit env params data db
  = (Normal (toast_error "Algo correu mal ao criar o tamanho!"), db)
  ∨ onSubmit env params data db
    = (Normal (toast_success "Tamanho criado com sucesso!"),
       with_size db (new_size env (storeId params) (name data) (value data))).
Proof.
  unfold onSubmit, bind. fold (body_of data).
  rewrite (POST_run env (body_of data) params db _ eq_refl)
    by (split; discriminate).
  cbv zeta.
  change (get_prop _ (js "name")) with (JString (name data)).
  change (get_prop _ (js "value")) with (JString (value data)).
  destruct (negb (truthy_str _)); [by left|].
  destruct (negb (truthy (JString (name data)))); [by left|].
  destruct (negb (truthy (JString (value data)))); [by left|].
  destruct (negb (truthy (JString (storeId params)))); [by left|].
  destruct (List.find _ _); [|by left].
  destruct (negb (fits_String _ && fits_String _)); [by left|].
  destruct (existsb _ _); [by left|by right].
Qed.

Lemma well_formed_not_empty lo hi s :
  (1 ≤ lo)%nat → well_formed lo hi s → s ≠ [].
Proof. intros Hlo [Hlen _] ->. simpl in Hlen. lia. Qed.

(** X9.  The dashboard path as a whole.  A submission of the size form
    either leaves the database as it was and shows no success toast, or
    writes exactly the row of the form's values, which are then well-formed
    (name: 3 to 30 allowed characters, value: 1 to 5, no outer white
    space), and shows the success toast.  Well-formed values always pass
    the endpoint's presence checks: sent by the owner of the store they are
    written (the identifier being unused), sent by anyone else they give
    the error toast. *)
Theorem handleSubmit_outcomes env params data db :
  let result := handleSubmit env params data db in
  let row := new_size env (storeId params) (name data) (value data) in
  ((snd result = db ∧ ∀ m, fst result ≠ Normal (Sent (toast_success m)))
   ∨ (well_formed 3 30 (name data) ∧ well_formed 1 5 (value data)
      ∧ result = (Normal (Sent (toast_success "Tamanho criado com sucesso!")),
                  with_size db row)))
  ∧ (well_formed 3 30 (name data) → well_formed 1 5 (value data) →
     (∀ u, userId (auth env) = Some u → u ≠ [] → storeId params ≠ [] →
           owns db u (storeId params) → fresh_id env db →
           result = (Normal (Sent (toast_success "Tamanho criado com sucesso!")),
                     with_size db row))
     ∧ ((∀ u, userId (auth env) = Some u → ¬ owns db u (storeId params)) →
        result = (Normal (Sent (toast_error "Algo correu mal ao criar o tamanho!")),
                  db))).
Proof.
  intros result row. subst result. unfold handleSubmit.
  destruct (formSchema data) as [|issue issues] eqn:Hschema.
  2: { split; [by left|]. intros Hn Hv.
       assert (formSchema data = []) by by apply formSchema_spec.
       congruence. }
  apply formSchema_spec in Hschema as [Hn Hv].
  assert (∀ t db', onSubmit env params data db = (Normal t, db') →
                   (t' <~ onSubmit env params data ;; ret (Sent t')) db
                   = (Normal (Sent t), db')) as Hsent.
  { intros t db' H. unfold bind. by rewrite H. }
  split.
  - destruct (onSubmit_cases env params data db) as [H|H];
      rewrite (Hsent _ _ H); [by left|by right].
  - intros _ _. split.
    + intros u Hu Hue Hsid Hown Hfresh. apply Hsent.
      unfold onSubmit, bind. fold (body_of data).
      rewrite (POST_run env (body_of data) params db _ eq_refl)
        by (split; discriminate).
      cbv zeta. rewrite Hu. apply truthy_str_Some in Hue as ->.
      change (get_prop _ (js "name")) with (JString (name data)).
      change (get_prop _ (js "value")) with (JString (value data)).
      assert (fits_String (name data) = true) as Hfn.
      { apply (well_formed_fits 3 30); [lia|done]. }
      assert (fits_String (value data) = true) as Hfv.
      { apply (well_formed_fits 1 5); [lia|done]. }
      apply well_formed_not_empty, truthy_JString in Hn as ->; [|lia].
      apply well_formed_not_empty, truthy_JString in Hv as ->; [|lia].
      apply truthy_JString in Hsid as ->. cbn [negb].
      apply existsb_store_where in Hown. rewrite existsb_find_store in Hown.
      apply bool_decide_eq_true in Hown as [s ->].
      rewrite Hfn, Hfv. cbn [negb andb].
      apply existsb_id_false in Hfresh as ->. reflexivity.
    + intros Hnot. apply Hsent.
      pose proof (POST_not_owner_db env (body_of data) params db Hnot) as Hdb.
      destruct (onSubmit_cases env params data db) as [->|Hok]; [done|].
      exfalso. unfold onSubmit, bind in Hok. fold (body_of data) in Hok.
      destruct (POST env (body_of data) params db) as [[resp|e] db'];
        simpl in Hdb; subst db'.
      * destruct ((200 <=? status resp) && (status resp <? 300));
          [|discriminate].
        injection Hok as Heq. by apply (with_size_neq db row).
      * discriminate.
Qed.

(** "Pequeno" / "S" submitted by the owner of [store1]. *)
Lemma handleSubmit_outcomes_witness :
  handleSubmit (Sample.env_of (Some Sample.u1)) Sample.at_store1
               Sample2.pequeno_values Sample.db0
  = (Normal (Sent (toast_success "Tamanho criado com sucesso!")),
     with_size Sample.db0 Sample.size1).
Proof.
  destruct (handleSubmit_outcomes (Sample.env_of (Some Sample.u1))
              Sample.at_store1 Sample2.pequeno_values Sample.db0)
    as [_ Hwell].
  destruct Hwell as [Howner _].
  - apply (proj1 (string_rule_spec 3 30 _ ltac:(lia))). reflexivity.
  - apply (proj1 (string_rule_spec 1 5 _ ltac:(lia))). reflexivity.
  - apply (Howner Sample.u1);
      [reflexivity | discriminate | discriminate | apply sample_u1_owns
      | apply sample_fresh].
Defined.

(* ===================================================================== *)
(** ** The rules of the two forms, rule by rule *)
(* ===================================================================== *)

Ltac bool_to_arith H :=
  rewrite ?orb_true_iff, ?andb_true_iff, ?N.leb_le, ?bool_decide_eq_true in H.

Lemma hex_digit_spec c :
  hex_digit c = true ↔ c ∈ js "0123456789abcdefABCDEF".
Proof.
  rewrite <- (bool_decide_eq_true (c ∈ js "0123456789abcdefABCDEF")). split.
  - unfold hex_digit. intros H. bool_to_arith H.
    assert (c ∈ [48; 49; 50; 51; 52; 53; 54; 55; 56; 57; 65; 66; 67; 68; 69;
                 70; 97; 98; 99; 100; 101; 102]%N) as Hin.
    { apply list_elem_of_In. simpl. lia. }
    apply list_elem_of_In in Hin. simpl in Hin.
    repeat (destruct Hin as [<-|Hin]; [reflexivity|]). done.
  - intros H. apply bool_decide_eq_true, list_elem_of_In in H.
    vm_compute in H.
    repeat (destruct H as [<-|H]; [reflexivity|]). done.
Qed.

Lemma hex_digit_not_blank c : hex_digit c = true → is_white_space c = false.
Proof.
  unfold hex_digit, is_white_space. intros H. bool_to_arith H.
  apply orb_false_intro.
  - apply bool_decide_eq_false. intros Hin.
    apply list_elem_of_In in Hin. simpl in Hin. lia.
  - apply andb_false_iff. rewrite !N.leb_gt. lia.
Qed.

Lemma allowed_blank_is_space c :
  allowed_char c = true → is_white_space c = true → c = 32%N.
Proof.
  unfold allowed_char, is_white_space. intros Ha Hw.
  bool_to_arith Ha. bool_to_arith Hw.
  rewrite !list_elem_of_In in Ha, Hw. simpl in Ha, Hw. lia.
Qed.

Lemma hex_regex_spec s : hex_regex_test s = true ↔ is_hex_color s.
Proof.
  unfold is_hex_color. split.
  - destruct s as [|c digits]; [done|]. simpl.
    destruct (N.eq_dec c 35) as [->|Hc].
    2: { destruct c as [|p]; [done|].
         do 6 (destruct p as [p|p|]; try done). }
    intros H. exists digits. split; [done|].
    apply orb_true_iff in H as [H|H]; apply andb_true_iff in H as [Hlen Hall];
      apply Nat.eqb_eq in Hlen; (split; [by auto|]);
      intros x Hx; apply hex_digit_spec;
      apply (proj1 (forallb_forall _ _) Hall), list_elem_of_In, Hx.
  - intros (digits & -> & Hlen & Hall). simpl.
    assert (forallb hex_digit digits = true) as ->.
    { apply forallb_forall. intros x Hx.
      by apply hex_digit_spec, Hall, list_elem_of_In. }
    rewrite !andb_true_r. apply orb_true_iff.
    destruct Hlen as [->| ->]; auto.
Qed.

Lemma hex_regex_trimmed s : hex_regex_test s = true → trim s = s.
Proof.
  intros (digits & -> & Hlen & Hall)%hex_regex_spec. apply trim_fixed. split.
  - by intros c rest [= <- <-].
  - intros front c Heq. apply hex_digit_not_blank, hex_digit_spec, Hall.
    destruct front as [|a front]; simpl in Heq.
    + injection Heq as _ ->. simpl in Hlen. lia.
    + injection Heq as _ ->. apply elem_of_app. right. apply list_elem_of_here.
Qed.

(** X10.  The colour form.  Its [value] is accepted exactly when it is [#]
    followed by three or six characters out of [0-9a-fA-F] (so it has 4 or
    7 characters); the form as a whole is accepted exactly when, besides,
    [name] is well-formed.  The white-space rule on [value] never fires on
    its own: a value with outer white space already fails the hex
    pattern. *)
Theorem ColorForm_value_is_hex :
  (∀ v, ColorForm.value_rule v = [] ↔ is_hex_color v)
  ∧ (∀ v, is_hex_color v → List.length v = 4%nat ∨ List.length v = 7%nat)
  ∧ (∀ v, custom msg_no_outer_blanks ∈ ColorForm.value_rule v →
          invalid_string msg_hex_code ∈ ColorForm.value_rule v)
  ∧ (∀ data, ColorForm.formSchema data = []
             ↔ well_formed 3 30 (ColorForm.name data)
               ∧ is_hex_color (ColorForm.value data)).
Proof.
  assert (∀ v, ColorForm.value_rule v = [] ↔ is_hex_color v) as Hrule.
  { intros v. rewrite <- hex_regex_spec. unfold ColorForm.value_rule.
    destruct (hex_regex_test v) eqn:Hre; [|done].
    by rewrite (hex_regex_trimmed v Hre), bool_decide_eq_true_2. }
  split; [done|]. split; [|split].
  - intros v (digits & -> & [Hlen|Hlen] & _); simpl; rewrite Hlen; auto.
  - intros v. unfold ColorForm.value_rule.
    destruct (hex_regex_test v) eqn:Hre.
    + rewrite (hex_regex_trimmed v Hre), bool_decide_eq_true_2 by done.
      simpl. by intros H%elem_of_nil.
    + intros _. apply elem_of_app. left. apply list_elem_of_here.
  - intros data. unfold ColorForm.formSchema.
    rewrite <- (string_rule_spec 3 30) by lia. rewrite <- Hrule. split.
    + intros [Hn Hv]%app_eq_nil. split.
      * by destruct (string_rule 3 30 _).
      * by destruct (ColorForm.value_rule _).
    + by intros [-> ->].
Qed.

(** The placeholder of the message, [#add6e8], is accepted; with a blank in
    front it breaks both rules. *)
Lemma ColorForm_value_is_hex_witness :
  ColorForm.value_rule (js "#add6e8") = []
  ∧ invalid_string msg_hex_code ∈ ColorForm.value_rule (js " #add6e8").
Proof.
  destruct ColorForm_value_is_hex as (Hrule & _ & Hboth & _). split.
  - apply Hrule. exists (js "add6e8"). split; [reflexivity|].
    split; [by right|]. intros c Hc. apply hex_digit_spec.
    apply list_elem_of_In in Hc. vm_compute in Hc.
    repeat (destruct Hc as [<-|Hc]; [reflexivity|]). destruct Hc.
  - apply Hboth. apply list_elem_of_further, list_elem_of_here.
Defined.

Lemma custom_issue_iff lo hi s :
  custom msg_no_outer_blanks ∈ string_rule lo hi s ↔ trim s ≠ s.
Proof.
  unfold string_rule. rewrite !elem_of_app.
  destruct (_ <? lo)%nat, (hi <? _)%nat, (regex_test s);
    case_bool_decide as Htrim;
    rewrite ?elem_of_nil, ?list_elem_of_singleton;
    split; intros Hx; try done;
    repeat (destruct Hx as [Hx|Hx]; try done); auto.
Qed.

(** X11.  The rule shared by [name] and [value] of the size form, rule by
    rule.  On a string of allowed characters the white-space rule reduces
    to the plain space: it is silent exactly when the string neither
    begins nor ends with a space (code unit 32).  And [min(1)] adds
    nothing to the pattern: where it fires, the pattern fires too. *)
Theorem string_rule_plain_space_only :
  (∀ lo hi s,
     regex_test s = true →
     custom msg_no_outer_blanks ∉ string_rule lo hi s
     ↔ (∀ rest, s ≠ 32%N :: rest) ∧ (∀ front, s ≠ front ++ [32%N]))
  ∧ (∀ hi s,
       too_small 1 ∈ string_rule 1 hi s →
       invalid_string msg_letters_digits ∈ string_rule 1 hi s).
Proof.
  split.
  - intros lo hi s [_ Hall]%regex_test_spec.
    rewrite custom_issue_iff.
    assert (trim s = s ↔ ¬ trim s ≠ s) as <-.
    { split; [by intros Heq Hne|]. intros Hnn.
      destruct (decide (trim s = s)) as [|Hne]; [done|by destruct Hnn]. }
    rewrite trim_fixed. unfold no_outer_blanks. split.
    + intros [Hfirst Hlast]. split.
      * intros rest ->. by specialize (Hfirst _ _ eq_refl).
      * intros front ->. by specialize (Hlast _ _ eq_refl).
    + intros [Hfirst Hlast]. split.
      * intros c rest ->. destruct (is_white_space c) eqn:Hw; [|done].
        destruct (Hfirst rest). f_equal.
        apply allowed_blank_is_space; [|done]. apply Hall, list_elem_of_here.
      * intros front c ->. destruct (is_white_space c) eqn:Hw; [|done].
        destruct (Hlast front). do 2 f_equal.
        apply allowed_blank_is_space; [|done].
        apply Hall, elem_of_app. right. apply list_elem_of_here.
  - intros hi s Hin. destruct s as [|c s].
    + simpl. apply list_elem_of_further, list_elem_of_here.
    + exfalso. revert Hin. unfold string_rule.
      change (List.length (c :: s) <? 1)%nat with false. cbv iota.
      rewrite !elem_of_app.
      destruct (hi <? _)%nat, (regex_test _), (bool_decide _);
        rewrite ?elem_of_nil, ?list_elem_of_singleton;
        intros Hx; repeat (destruct Hx as [Hx|Hx]; try done).
Qed.
